(** * MQTT IoT health checker: arrival tracking, status derivation and
      metrics export

    A shallow embedding of [mqtt_iot_healthcheck.py] (class
    [MQTTHealthChecker] and the [/metrics] handler [get_metrics]), and of the
    properties its specification states about them.

    Python values are modelled as follows.
    - [str] is [string]; the characters the program inspects are ASCII.
    - [int] is [Z].
    - [float] is IEEE-754 binary64, as [spec_float] with the operations of
      the standard library's [SpecFloat] at precision 53 and maximal
      exponent 1024.
    - [dict] with [str] keys is [gmap string _]; [list] is [list].
    - [datetime] is the record of its calendar fields; [timedelta] is its
      total number of microseconds.
    - an operation that can raise returns a [result]. *)

From Stdlib Require Import ZArith List Bool Ascii String Lia.
From Stdlib Require Import SpecFloat.
From stdpp Require Import base option list gmap strings.

Import ListNotations.
Local Open Scope string_scope.
Local Open Scope Z_scope.

(** ** Exceptions *)

Inductive exn :=
  | FileNotFoundError
  | JSONDecodeError
  | AttributeError
  | TypeError
  | ValueError.

Inductive result (A : Type) :=
  | Ok (a : A)
  | Raise (e : exn).
Arguments Ok {A} a.
Arguments Raise {A} e.

#[global] Instance result_ret : MRet result := fun _ a => Ok a.

#[global] Instance result_bind : MBind result := fun _ _ k r =>
  match r with
  | Ok a => k a
  | Raise e => Raise e
  end.

(** ** Strings *)

Module Str.

Definition digit (d : Z) : ascii := ascii_of_nat (48 + Z.to_nat d).

(** The decimal digits of [n >= 0], most significant first; [fuel] bounds
    the number of digits. *)
Fixpoint digits (fuel : nat) (n : Z) (acc : string) : string :=
  match fuel with
  | O => acc
  | S fuel' =>
      let acc' := String (digit (n mod 10)) acc in
      if n / 10 =? 0 then acc' else digits fuel' (n / 10) acc'
  end.

(** [str(n)] for [n >= 0]. *)
Definition of_N (n : Z) : string :=
  digits (S (Z.to_nat (Z.log2 n))) n "".

(** [str(n)] for an [int]. *)
Definition of_Z (n : Z) : string :=
  if n <? 0 then "-" ++ of_N (- n) else of_N n.

Fixpoint zeros (k : nat) : string :=
  match k with
  | O => ""
  | S k' => String "0" (zeros k')
  end.

(** ["%0<w>d" % n] for [n >= 0]. *)
Definition zpad (w : nat) (n : Z) : string :=
  let s := of_N n in
  zeros (w - String.length s) ++ s.

(** [s.replace(a, b)] for one-character [a] and [b]. *)
Fixpoint replace (a b : ascii) (s : string) : string :=
  match s with
  | EmptyString => EmptyString
  | String c s' =>
      String (if Ascii.eqb c a then b else c) (replace a b s')
  end.

(** [s.split(c)[0]]: the part of [s] before the first [c]. *)
Fixpoint before (c : ascii) (s : string) : string :=
  match s with
  | EmptyString => EmptyString
  | String x s' =>
      if Ascii.eqb x c then EmptyString else String x (before c s')
  end.

(** [sep.join(l)]. *)
Fixpoint join (sep : string) (l : list string) : string :=
  match l with
  | [] => ""
  | [x] => x
  | x :: l' => x ++ sep ++ join sep l'
  end.

(** [(s[:-1], s[-1])] for a non-empty [s]. *)
Fixpoint unsnoc (s : string) : option (string * ascii) :=
  match s with
  | EmptyString => None
  | String c s' =>
      match unsnoc s' with
      | None => Some (EmptyString, c)
      | Some (r, l) => Some (String c r, l)
      end
  end.

(** [s.endswith(c)] for a one-character [c]. *)
Definition endswith (s : string) (c : ascii) : bool :=
  match unsnoc s with
  | Some (_, l) => Ascii.eqb l c
  | None => false
  end.

(** [s[:-1]]. *)
Definition init (s : string) : string :=
  match unsnoc s with
  | Some (r, _) => r
  | None => EmptyString
  end.

Definition is_digit (c : ascii) : bool :=
  let n := nat_of_ascii c in (48 <=? n)%nat && (n <=? 57)%nat.

Definition digit_val (c : ascii) : Z := Z.of_nat (nat_of_ascii c) - 48.

(** The value of a string of decimal digits, [None] when it is empty or
    holds another character. *)
Fixpoint parse_digits (acc : Z) (s : string) : option Z :=
  match s with
  | EmptyString => None
  | String c s' =>
      if is_digit c then
        let acc' := 10 * acc + digit_val c in
        match s' with
        | EmptyString => Some acc'
        | _ => parse_digits acc' s'
        end
      else None
  end.

Definition nl : string := String (ascii_of_nat 10) EmptyString.

Definition dq : string := String (ascii_of_nat 34) EmptyString.

End Str.

(** ** Floats (binary64) *)

Module F.

Definition float := spec_float.

Definition prec : Z := 53.
Definition emax : Z := 1024.

Definition add : float -> float -> float := SFadd prec emax.
Definition mul : float -> float -> float := SFmul prec emax.
Definition div : float -> float -> float := SFdiv prec emax.
Definition ltb : float -> float -> bool := SFltb.

(** [float(n)] for an [int] [n], correctly rounded. *)
Definition of_Z (n : Z) : float := binary_normalize prec emax n 0 false.

(** [a / b] for [int]s [a] and [b > 0]: the quotient correctly rounded to
    the nearest float, ties to even (CPython's [long_true_divide]). *)
Definition int_true_div (a b : Z) : float :=
  if a =? 0 then S754_zero false
  else
    let s := 55 + Z.log2 b in
    let n := Z.abs a * 2 ^ s in
    let q := n / b in
    let r := n mod b in
    let l := if r =? 0 then loc_Exact else loc_Inexact (2 * r ?= b) in
    binary_round_aux prec emax (a <? 0) q (- s) l.

(** The integer nearest to [num / den] ([num >= 0], [den > 0]), ties to
    even. *)
Definition round_half_even (num den : Z) : Z :=
  let q := num / den in
  let r := num mod den in
  match 2 * r ?= den with
  | Lt => q
  | Gt => q + 1
  | Eq => if Z.even q then q else q + 1
  end.

Definition sign_str (s : bool) : string := if s then "-" else "".

(** [format(x, '.1f')]: one digit after the point, the exact binary value
    rounded to the nearest tenth, ties to even. *)
Definition format_1f (x : float) : string :=
  match x with
  | S754_nan => "nan"
  | S754_infinity s => sign_str s ++ "inf"
  | S754_zero s => sign_str s ++ "0.0"
  | S754_finite s m e =>
      let n :=
        if 0 <=? e then Zpos m * 2 ^ e * 10
        else round_half_even (Zpos m * 10) (2 ^ (- e)) in
      sign_str s ++ Str.of_N (n / 10) ++ "." ++ Str.of_N (n mod 10)
  end.

(** [float(s)] on the strings that [format_1f] can produce: an optional
    sign, then [inf], [nan], or digits, a point and digits.  CPython accepts
    more (exponents, surrounding blanks, underscores, a missing integer
    or fraction part); this model answers [ValueError] there, on strings
    [format_1f] never writes. *)
Definition parse_unsigned (s : string) : result (bool -> float) :=
  if String.eqb s "inf" then Ok (fun sg => S754_infinity sg)
  else if String.eqb s "nan" then Ok (fun _ => S754_nan)
  else
    let ip := Str.before "." s in
    let fp := substring (S (String.length ip))
                (String.length s - S (String.length ip)) s in
    if (String.length ip <? String.length s)%nat then
      match Str.parse_digits 0 ip, Str.parse_digits 0 fp with
      | Some i, Some f =>
          let k := Z.of_nat (String.length fp) in
          let n := i * 10 ^ k + f in
          Ok (fun sg =>
                if n =? 0 then S754_zero sg
                else int_true_div (if sg then - n else n) (10 ^ k))
      | _, _ => Raise ValueError
      end
    else Raise ValueError.

Definition of_string (s : string) : result float :=
  match s with
  | String "-" s' => f ← parse_unsigned s'; Ok (f true)
  | _ => f ← parse_unsigned s; Ok (f false)
  end.

(** *** [repr(x)]

    The shortest decimal string that reads back as [x], the nearest to
    [x] among the shortest; printed in positional notation when the
    decimal point falls within 16 digits, else with an exponent. *)

(** [x = X * un / ud] is compared with decimals [d * 10^k]. *)
Definition cmp_dec (d k l un ud : Z) : comparison :=
  if 0 <=? k then d * 10 ^ k * ud ?= l * un
  else d * ud ?= l * un * 10 ^ (- k).

Definition floor_dec (k x un ud : Z) : Z :=
  if 0 <=? k then (x * un) / (ud * 10 ^ k)
  else (x * un * 10 ^ (- k)) / ud.

(** The least [p] from [p0] on with [x < 10^p]. *)
Fixpoint find_decpt (fuel : nat) (p x un ud : Z) : Z :=
  match fuel with
  | O => p
  | S fuel' =>
      match cmp_dec 1 p x un ud with
      | Gt => p
      | _ => find_decpt fuel' (p + 1) x un ud
      end
  end.

(** Drop the trailing zeros of [d], counting them into [k]. *)
Fixpoint strip_zeros (fuel : nat) (d k : Z) : Z * Z :=
  match fuel with
  | O => (d, k)
  | S fuel' =>
      if (d mod 10 =? 0) && negb (d =? 0)
      then strip_zeros fuel' (d / 10) (k + 1)
      else (d, k)
  end.

(** The shortest digits [(d, k)], with [d * 10^k] reading back as the
    float [m * 2^e]. *)
Fixpoint shortest (fuel : nat) (n : Z) (p : Z) (m : positive) (e : Z)
  : Z * Z :=
  let x := 4 * Zpos m in
  let un := if 2 <=? e then 2 ^ (e - 2) else 1 in
  let ud := if 2 <=? e then 1 else 2 ^ (2 - e) in
  let hi := x + 2 in
  let lo :=
    if (Zpos m =? 2 ^ (prec - 1)) && (3 - emax - prec <? e)
    then x - 1 else x - 2 in
  let even := Z.even (Zpos m) in
  let inside d k :=
    match cmp_dec d k lo un ud, cmp_dec d k hi un ud with
    | Gt, Lt => true
    | Eq, Lt | Gt, Eq => even
    | _, _ => false
    end in
  let k := p - n in
  let d0 := floor_dec k x un ud in
  let d1 := d0 + 1 in
  match fuel with
  | O => (d0, k)
  | S fuel' =>
      match inside d0 k, inside d1 k with
      | true, true =>
          match cmp_dec (d0 + d1) k (2 * x) un ud with
          | Lt => (d1, k)
          | _ => (d0, k)
          end
      | true, false => (d0, k)
      | false, true => (d1, k)
      | false, false => shortest fuel' (n + 1) p m e
      end
  end.

Definition repr (x : float) : string :=
  match x with
  | S754_nan => "nan"
  | S754_infinity s => sign_str s ++ "inf"
  | S754_zero s => sign_str s ++ "0.0"
  | S754_finite s m e =>
      let b := Zpos (digits2_pos m) + e in
      let p0 := ((b - 1) * 30103) / 100000 - 2 in
      let un := if 2 <=? e then 2 ^ (e - 2) else 1 in
      let ud := if 2 <=? e then 1 else 2 ^ (2 - e) in
      let p := find_decpt 8 p0 (4 * Zpos m) un ud in
      let '(d, k) := shortest 17 1 p m e in
      let '(d, k) := strip_zeros 17 d k in
      let ds := Str.of_N d in
      let n := Z.of_nat (String.length ds) in
      let decpt := k + n in
      sign_str s ++
      if (decpt <=? -4) || (16 <? decpt) then
        let ex := decpt - 1 in
        substring 0 1 ds ++
        (if 1 <? n then "." ++ substring 1 (Z.to_nat (n - 1)) ds else "") ++
        "e" ++ (if ex <? 0 then "-" else "+") ++ Str.zpad 2 (Z.abs ex)
      else if decpt <=? 0 then
        "0." ++ Str.zeros (Z.to_nat (- decpt)) ++ ds
      else if n <=? decpt then
        ds ++ Str.zeros (Z.to_nat (decpt - n)) ++ ".0"
      else
        substring 0 (Z.to_nat decpt) ds ++ "." ++
        substring (Z.to_nat decpt) (Z.to_nat (n - decpt)) ds
  end.

End F.

(** ** [datetime] and [timedelta] *)

Module DT.

(** A naive [datetime]: its calendar fields. *)
Record datetime := mk {
  year : Z;
  month : Z;
  day : Z;
  hour : Z;
  minute : Z;
  second : Z;
  microsecond : Z
}.

(** A [timedelta], as its total number of microseconds; [days], [seconds]
    and [microseconds] are its normalised fields. *)
Definition timedelta := Z.

Definition us_per_second : Z := 1000000.
Definition us_per_day : Z := 86400 * us_per_second.

Definition days (d : timedelta) : Z := d / us_per_day.
Definition seconds (d : timedelta) : Z := (d mod us_per_day) / us_per_second.
Definition microseconds (d : timedelta) : Z :=
  (d mod us_per_day) mod us_per_second.

(** [timedelta(days, seconds, microseconds)] and [timedelta(hours=h)]. *)
Definition make (dd ss us : Z) : timedelta :=
  (dd * 86400 + ss) * us_per_second + us.
Definition of_hours (h : Z) : timedelta := make 0 (h * 3600) 0.

Definition is_leap (y : Z) : bool :=
  (y mod 4 =? 0) && (negb (y mod 100 =? 0) || (y mod 400 =? 0)).

Definition days_before_year (y : Z) : Z :=
  let y := y - 1 in y * 365 + y / 4 - y / 100 + y / 400.

Definition days_in_month (y m : Z) : Z :=
  if (m =? 2) && is_leap y then 29
  else nth (Z.to_nat m) [-1; 31; 28; 31; 30; 31; 30; 31; 31; 30; 31; 30; 31] 0.

Definition days_before_month (y m : Z) : Z :=
  nth (Z.to_nat m) [-1; 0; 31; 59; 90; 120; 151; 181; 212; 243; 273; 304; 334] 0
  + (if (2 <? m) && is_leap y then 1 else 0).

Definition ymd2ord (y m d : Z) : Z :=
  days_before_year y + days_before_month y m + d.

Definition toordinal (t : datetime) : Z :=
  ymd2ord (year t) (month t) (day t).

(** The checks of the [datetime] constructor. *)
Definition valid (t : datetime) : bool :=
  (1 <=? year t) && (year t <=? 9999) &&
  (1 <=? month t) && (month t <=? 12) &&
  (1 <=? day t) && (day t <=? days_in_month (year t) (month t)) &&
  (0 <=? hour t) && (hour t <=? 23) &&
  (0 <=? minute t) && (minute t <=? 59) &&
  (0 <=? second t) && (second t <=? 59) &&
  (0 <=? microsecond t) && (microsecond t <=? 999999).

(** [a - b] for two naive datetimes. *)
Definition sub (a b : datetime) : timedelta :=
  let secs1 := second a + minute a * 60 + hour a * 3600 in
  let secs2 := second b + minute b * 60 + hour b * 3600 in
  make (toordinal a - toordinal b) (secs1 - secs2)
       (microsecond a - microsecond b).

(** [d.total_seconds()]. *)
Definition total_seconds (d : timedelta) : F.float :=
  F.int_true_div d (10 ^ 6).

(** [bool(d)]. *)
Definition truthy (d : timedelta) : bool :=
  negb (days d =? 0) || negb (seconds d =? 0) || negb (microseconds d =? 0).

(** [str(d)]. *)
Definition to_string (d : timedelta) : string :=
  let mm := seconds d / 60 in
  let ss := seconds d mod 60 in
  let hh := mm / 60 in
  let mm := mm mod 60 in
  let s := Str.of_Z hh ++ ":" ++ Str.zpad 2 mm ++ ":" ++ Str.zpad 2 ss in
  let s :=
    if negb (days d =? 0) then
      Str.of_Z (days d) ++ " day" ++
      (if negb (Z.abs (days d) =? 1) then "s" else "") ++ ", " ++ s
    else s in
  if negb (microseconds d =? 0) then s ++ "." ++ Str.zpad 6 (microseconds d)
  else s.

(** [t.strftime('%Y-%m-%d %H:%M:%S')]; the year is written in decimal
    without padding, as the C library under CPython writes [%Y], so that a
    year below 1000 has fewer than four digits. *)
Definition strftime (t : datetime) : string :=
  Str.of_N (year t) ++ "-" ++ Str.zpad 2 (month t) ++ "-" ++
  Str.zpad 2 (day t) ++ " " ++ Str.zpad 2 (hour t) ++ ":" ++
  Str.zpad 2 (minute t) ++ ":" ++ Str.zpad 2 (second t).

Definition field (s : string) (pos len : nat) : option Z :=
  let f := substring pos len s in
  if (String.length f =? len)%nat then Str.parse_digits 0 f else None.

Definition sep_at (s : string) (pos : nat) (c : ascii) : bool :=
  match get pos s with
  | Some x => Ascii.eqb x c
  | None => false
  end.

(** [datetime.strptime(s, '%Y-%m-%d %H:%M:%S')] on the fixed-width
    form [YYYY-MM-DD HH:MM:SS]; the year needs four digits, and the fields
    are range-checked as the [datetime] constructor does.  CPython also
    reads one-digit months, days and times and wider blanks; this model
    answers [ValueError] there, a form [strftime] never writes. *)
Definition strptime (s : string) : result datetime :=
  if (String.length s =? 19)%nat && sep_at s 4 "-" && sep_at s 7 "-"
     && sep_at s 10 " " && sep_at s 13 ":" && sep_at s 16 ":" then
    match field s 0 4, field s 5 2, field s 8 2,
          field s 11 2, field s 14 2, field s 17 2 with
    | Some y, Some m, Some d, Some hh, Some mi, Some ss =>
        let t := mk y m d hh mi ss 0 in
        if valid t then Ok t else Raise ValueError
    | _, _, _, _, _, _ => Raise ValueError
    end
  else Raise ValueError.

End DT.

Abbreviation datetime := DT.datetime.
Abbreviation timedelta := DT.timedelta.

(** ** The configuration source of [load_topics] *)

(** An element of the [topics] sequence: the loop tests [isinstance(item,
    str)], then [isinstance(item, dict)], and ignores anything else.  The
    members of a structured entry are strings, as the configuration format
    has them. *)
Inductive item :=
  | ItemStr (s : string)
  | ItemDict (d : gmap string string)
  | ItemOther.

(** What [for item in topics_data] iterates over, or a value that cannot be
    iterated. *)
Inductive topics_value :=
  | Items (l : list item)
  | NotIterable.

(** The parsed document: a JSON object with its [topics] member when it has
    one, or another JSON value, which has no [get]. *)
Inductive document :=
  | DocObject (topics_member : option topics_value)
  | DocOther.

(** The outcome of [open] and [json.load] on the topics file. *)
Inductive source :=
  | Missing
  | Malformed
  | Parsed (doc : document).

(** ** [MQTTHealthChecker] *)

Record checker := mkChecker {
  topics : list string;
  topic_descriptions : gmap string string;
  topic_types : gmap string string;
  topic_timestamps : gmap string datetime;
  topic_counters : gmap string Z;
  topic_message_history : gmap string (list datetime)
}.

Definition max_history_size : Z := 100.

(** The fields [__init__] sets before it calls [load_topics]. *)
Definition empty_checker : checker := mkChecker [] ∅ ∅ ∅ ∅ ∅.

(** [d.get(k, default)]. *)
Definition dict_get {A} (d : gmap string A) (k : string) (default : A) : A :=
  match d !! k with
  | Some v => v
  | None => default
  end.

(** Truth value of a [str]. *)
Definition nonempty (s : string) : bool := negb (String.eqb s "").

(** One turn of the loop of [load_topics], on the three fields it builds. *)
Definition load_item
    (acc : list string * gmap string string * gmap string string)
    (it : item) : list string * gmap string string * gmap string string :=
  let '(ts, descs, types) := acc in
  match it with
  | ItemStr topic => ((ts ++ [topic])%list, descs, types)
  | ItemDict d =>
      let topic := dict_get d "topic" "" in
      let description := dict_get d "description" "" in
      let topic_type := dict_get d "type" "" in
      if nonempty topic then
        ((ts ++ [topic])%list,
         (if nonempty description then <[topic := description]> descs
          else descs),
         (if nonempty topic_type then <[topic := topic_type]> types
          else types))
      else (ts, descs, types)
  | ItemOther => (ts, descs, types)
  end.

Definition load_items (l : list item)
  : list string * gmap string string * gmap string string :=
  fold_left load_item l ([], ∅, ∅).

(** [load_topics]: the two [except] clauses give the empty registry; an
    exception of another class leaves the method. *)
Definition load_topics (self : checker) (src : source) : result checker :=
  match src with
  | Missing | Malformed =>
      Ok (mkChecker [] ∅ ∅
            (topic_timestamps self) (topic_counters self) ∅)
  | Parsed DocOther => Raise AttributeError
  | Parsed (DocObject (Some NotIterable)) => Raise TypeError
  | Parsed (DocObject tv) =>
      let topics_data :=
        match tv with
        | Some (Items l) => l
        | _ => []
        end in
      let '(ts, descs, types) := load_items topics_data in
      Ok (mkChecker ts descs types
            (topic_timestamps self) (topic_counters self)
            (topic_message_history self))
  end.

(** [MQTTHealthChecker(topics_file=...)]. *)
Definition init (src : source) : result checker := load_topics empty_checker src.

(** [l[-n:]]. *)
Definition last_n {A} (n : Z) (l : list A) : list A :=
  if n =? 0 then l
  else skipn (Z.to_nat (Z.of_nat (length l) - n)) l.

(** [on_message], with [msg.topic] and the reading of the clock. *)
Definition on_message (self : checker) (topic : string)
    (current_time : datetime) : checker :=
  let timestamps := <[topic := current_time]> (topic_timestamps self) in
  let counters :=
    <[topic := dict_get (topic_counters self) topic 0 + 1]>
      (topic_counters self) in
  let history :=
    match topic_message_history self !! topic with
    | Some _ => topic_message_history self
    | None => <[topic := []]> (topic_message_history self)
    end in
  let history :=
    <[topic := (dict_get history topic [] ++ [current_time])%list]> history in
  let history :=
    if max_history_size <? Z.of_nat (length (dict_get history topic []))
    then <[topic := last_n max_history_size (dict_get history topic [])]>
           history
    else history in
  mkChecker (topics self) (topic_descriptions self) (topic_types self)
    timestamps counters history.

(** The loop of [_calculate_average_interval]: the seconds between each
    timestamp and the one before it. *)
Fixpoint intervals (timestamps : list datetime) : list F.float :=
  match timestamps with
  | a :: (b :: _) as rest =>
      DT.total_seconds (DT.sub b a) :: intervals rest
  | _ => []
  end.

(** [sum(l)] for a list of floats: additions from the left, from [0], as
    CPython does up to version 3.11 (later versions carry a compensation
    term along, which can change the last bit of a sum of many terms). *)
Definition fsum (l : list F.float) : F.float :=
  fold_left F.add l (F.of_Z 0).

(** The formatting at the end of [_calculate_average_interval]. *)
Definition format_interval (avg_seconds : F.float) : string :=
  if F.ltb avg_seconds (F.of_Z 60) then
    F.format_1f avg_seconds ++ "s"
  else if F.ltb avg_seconds (F.of_Z 3600) then
    F.format_1f (F.div avg_seconds (F.of_Z 60)) ++ "m"
  else if F.ltb avg_seconds (F.of_Z 86400) then
    F.format_1f (F.div avg_seconds (F.of_Z 3600)) ++ "h"
  else
    F.format_1f (F.div avg_seconds (F.of_Z 86400)) ++ "d".

(** [sum(intervals) / len(intervals)]. *)
Definition avg_seconds (ivs : list F.float) : F.float :=
  F.div (fsum ivs) (F.of_Z (Z.of_nat (length ivs))).

(** [_calculate_average_interval] past the lookup of the topic's history. *)
Definition average_of (timestamps : list datetime) : string :=
  if (length timestamps <? 2)%nat then "No data"
  else
    let ivs := intervals timestamps in
    match ivs with
    | [] => "No data"
    | _ => format_interval (avg_seconds ivs)
    end.

Definition _calculate_average_interval (self : checker) (topic : string)
  : string :=
  match topic_message_history self !! topic with
  | None => "No data"
  | Some timestamps => average_of timestamps
  end.

(** An element of the list [get_status_data] returns. *)
Record status := mkStatus {
  st_topic : string;
  st_display_name : string;
  st_type : string;
  st_last_seen : string;
  st_time_since : string;
  st_message_count : Z;
  st_avg_interval : string;
  st_status : string
}.

(** The body of the loop of [get_status_data]. *)
Definition topic_status (self : checker) (current_time : datetime)
    (topic : string) : status :=
  let '(last_seen, time_diff, status) :=
    match topic_timestamps self !! topic with
    | Some last_seen =>
        let time_diff := DT.sub current_time last_seen in
        (Some last_seen, Some time_diff,
         if time_diff <? DT.of_hours 1 then "healthy" else "unhealthy")
    | None => (None, None, "never_seen")
    end in
  let message_count := dict_get (topic_counters self) topic 0 in
  let display_name := dict_get (topic_descriptions self) topic topic in
  let topic_type := dict_get (topic_types self) topic "unknown" in
  let avg_interval := _calculate_average_interval self topic in
  mkStatus topic display_name topic_type
    (match last_seen with
     | Some t => DT.strftime t
     | None => "Never"
     end)
    (match time_diff with
     | Some d =>
         if DT.truthy d then Str.before "." (DT.to_string d) else "Never"
     | None => "Never"
     end)
    message_count avg_interval status.

(** [get_status_data], with the reading of the clock. *)
Definition get_status_data (self : checker) (current_time : datetime)
  : list status :=
  map (topic_status self current_time) (topics self).

(** ** The [/metrics] handler *)

(** A number the handler formats: the [int] [0] it starts from, or a
    [float]. *)
Inductive num :=
  | Int (n : Z)
  | Float (x : F.float).

(** [f"{v}"]. *)
Definition num_str (v : num) : string :=
  match v with
  | Int n => Str.of_Z n
  | Float x => F.repr x
  end.

(** [v > 0]. *)
Definition num_pos (v : num) : bool :=
  match v with
  | Int n => 0 <? n
  | Float x => F.ltb (F.of_Z 0) x
  end.

Definition header : list string :=
  [ "# HELP mqtt_topic_last_seen_timestamp Unix timestamp of last message received for each topic";
    "# TYPE mqtt_topic_last_seen_timestamp gauge";
    "# HELP mqtt_topic_message_count Total number of messages received for each topic";
    "# TYPE mqtt_topic_message_count counter";
    "# HELP mqtt_topic_healthy Whether the topic is considered healthy (1) or not (0)";
    "# TYPE mqtt_topic_healthy gauge";
    "# HELP mqtt_topic_avg_interval_seconds Average interval between messages in seconds";
    "# TYPE mqtt_topic_avg_interval_seconds gauge" ].

(** The value of [safe_topic]. *)
Definition safe_topic (topic : string) : string :=
  Str.replace " " "_"
    (Str.replace ":" "_"
       (Str.replace "." "_"
          (Str.replace "-" "_" (Str.replace "/" "_" topic)))).

(** The value of [labels]. *)
Definition labels (topic_data : status) : string :=
  "topic=" ++ Str.dq ++ st_topic topic_data ++ Str.dq ++
  ",display_name=" ++ Str.dq ++ st_display_name topic_data ++ Str.dq ++
  ",type=" ++ Str.dq ++ st_type topic_data ++ Str.dq.

(** The conversion of [avg_interval] to seconds. *)
Definition avg_interval_seconds (avg_interval_str : string) : result num :=
  if negb (String.eqb avg_interval_str "No data") then
    if Str.endswith avg_interval_str "s" then
      x ← F.of_string (Str.init avg_interval_str); Ok (Float x)
    else if Str.endswith avg_interval_str "m" then
      x ← F.of_string (Str.init avg_interval_str);
      Ok (Float (F.mul x (F.of_Z 60)))
    else if Str.endswith avg_interval_str "h" then
      x ← F.of_string (Str.init avg_interval_str);
      Ok (Float (F.mul x (F.of_Z 3600)))
    else if Str.endswith avg_interval_str "d" then
      x ← F.of_string (Str.init avg_interval_str);
      Ok (Float (F.mul x (F.of_Z 86400)))
    else Ok (Int 0)
  else Ok (Int 0).

Definition metric (name lbls : string) (v : string) : string :=
  name ++ "{" ++ lbls ++ "} " ++ v.

Section Metrics.

(** The local time zone, as the seconds from the epoch to a naive local
    time ([datetime.timestamp] goes through it). *)
Variable mktime : datetime -> Z.

(** [t.timestamp()] for a naive [t]. *)
Definition timestamp (t : datetime) : F.float :=
  F.add (F.of_Z (mktime t))
        (F.div (F.of_Z (DT.microsecond t)) (F.of_Z 1000000)).

(** The value of [last_seen_timestamp]. *)
Definition last_seen_timestamp (last_seen : string) : result num :=
  if negb (String.eqb last_seen "Never") then
    last_seen_dt ← DT.strptime last_seen;
    Ok (Float (timestamp last_seen_dt))
  else Ok (Int 0).

(** The lines one turn of the loop of [get_metrics] appends. *)
Definition topic_lines (topic_data : status) : result (list string) :=
  let topic := st_topic topic_data in
  let safe_topic := safe_topic topic in
  let message_count := st_message_count topic_data in
  let status := st_status topic_data in
  last_seen_timestamp ← last_seen_timestamp (st_last_seen topic_data);
  avg_interval_seconds ← avg_interval_seconds (st_avg_interval topic_data);
  let labels := labels topic_data in
  let healthy_value := if String.eqb status "healthy" then 1 else 0 in
  Ok ([ metric "mqtt_topic_last_seen_timestamp" labels
          (num_str last_seen_timestamp);
        metric "mqtt_topic_message_count" labels (Str.of_Z message_count);
        metric "mqtt_topic_healthy" labels (Str.of_Z healthy_value) ]
      ++ (if num_pos avg_interval_seconds
          then [ metric "mqtt_topic_avg_interval_seconds" labels
                   (num_str avg_interval_seconds) ]
          else []))%list.

Fixpoint metrics_lines (status_data : list status) : result (list string) :=
  match status_data with
  | [] => Ok []
  | topic_data :: rest =>
      ls ← topic_lines topic_data;
      more ← metrics_lines rest;
      Ok (ls ++ more)%list
  end.

(** The text [get_metrics] answers with; [health_checker] is [None]
    until [main] has built the checker. *)
Definition get_metrics (health_checker : option checker)
    (now : datetime) : result string :=
  match health_checker with
  | None => Ok ("# No health checker initialized" ++ Str.nl)
  | Some hc =>
      let status_data := get_status_data hc now in
      ls ← metrics_lines status_data;
      Ok (Str.join Str.nl (header ++ ls)%list ++ Str.nl)
  end.

End Metrics.

(** ** Definitions used to state the properties *)

(** Microseconds from the start of day 0 of the proleptic calendar to [t]. *)
Definition to_us (t : datetime) : Z :=
  (DT.toordinal t * 86400 +
   (DT.second t + DT.minute t * 60 + DT.hour t * 3600)) * 1000000
  + DT.microsecond t.

(** The checker after the arrivals [events], each a topic and the time
    read at its arrival, in the order [on_message] handles them. *)
Definition record_all (self : checker) (events : list (string * datetime))
  : checker :=
  fold_left (fun s e => on_message s (fst e) (snd e)) events self.

(** The arrival times on [topic] among [events], in order. *)
Fixpoint arrivals (topic : string) (events : list (string * datetime))
  : list datetime :=
  match events with
  | [] => []
  | (tp, t) :: rest =>
      if String.eqb tp topic then t :: arrivals topic rest
      else arrivals topic rest
  end.

(** The last [n] elements of [l], all of [l] when it has fewer. *)
Definition keep_last {A} (n : nat) (l : list A) : list A :=
  skipn (length l - n) l.

(** The replacement the specification describes for label values: each of
    the characters [/ - . :] and the blank becomes an underscore. *)
Definition sanitize_char (c : ascii) : ascii :=
  if Ascii.eqb c "/" || Ascii.eqb c "-" || Ascii.eqb c "." ||
     Ascii.eqb c ":" || Ascii.eqb c " "
  then "_"%char else c.

Fixpoint sanitize (s : string) : string :=
  match s with
  | EmptyString => EmptyString
  | String c s' => String (sanitize_char c) (sanitize s')
  end.

(** [sub in s]. *)
Fixpoint contains (sub s : string) : bool :=
  String.prefix sub s ||
  match s with
  | EmptyString => false
  | String _ s' => contains sub s'
  end.

(** The time zone UTC: seconds from 1970-01-01 00:00:00 to [t]. *)
Definition mktime_utc (t : datetime) : Z :=
  (DT.toordinal t - 719163) * 86400
  + DT.hour t * 3600 + DT.minute t * 60 + DT.second t.

(** [s] holds decimal digits only. *)
Fixpoint all_digits (s : string) : bool :=
  match s with
  | EmptyString => true
  | String c s' => Str.is_digit c && all_digits s'
  end.


(** Checks, by evaluation, that a zero-padded field of width 2 or 4 reads
    back as the number it was written from. *)
Definition pad2_ok (n : nat) : bool :=
  match Str.zpad 2 (Z.of_nat n) with
  | String a (String b EmptyString) =>
      match Str.parse_digits 0 (String a (String b EmptyString)) with
      | Some v => v =? Z.of_nat n
      | None => false
      end
  | _ => false
  end.




(** The mean of the consecutive-pair deltas of a history, after the
    words of the specification: the deltas [ts[i] - ts[i-1]] in seconds,
    for [i] from 1 to [len(ts) - 1], added up in this order and divided by
    their number. *)
Definition spec_delta (ts : list datetime) (i : nat) : F.float :=
  match ts !! (i - 1)%nat, ts !! i with
  | Some a, Some b => F.int_true_div (to_us b - to_us a) 1000000
  | _, _ => F.of_Z 0
  end.

Fixpoint spec_sum_deltas (ts : list datetime) (k : nat) : F.float :=
  match k with
  | O => F.of_Z 0
  | S k' => F.add (spec_sum_deltas ts k') (spec_delta ts (S k'))
  end.

Definition spec_mean_delta (ts : list datetime) : F.float :=
  F.div (spec_sum_deltas ts (length ts - 1))
        (F.of_Z (Z.of_nat (length ts - 1))).

(** ** Threads sharing one checker

    The callbacks of the MQTT client and the request handlers run on
    threads of their own.  [on_message] and [get_status_data] each enter
    [with self.lock] before they touch the dictionaries; a thread is
    modelled by where it stands in its method, a step being one statement of
    the block, the entry into it or the exit from it. *)

(** The statements of the block of [on_message], numbered from 0. *)
Definition on_message_stmt (k : nat) (topic : string)
    (current_time : datetime) (self : checker) : checker :=
  let history := topic_message_history self in
  match k with
  | 0%nat =>
      mkChecker (topics self) (topic_descriptions self) (topic_types self)
        (<[topic := current_time]> (topic_timestamps self))
        (topic_counters self) history
  | 1%nat =>
      mkChecker (topics self) (topic_descriptions self) (topic_types self)
        (topic_timestamps self)
        (<[topic := dict_get (topic_counters self) topic 0 + 1]>
           (topic_counters self))
        history
  | 2%nat =>
      mkChecker (topics self) (topic_descriptions self) (topic_types self)
        (topic_timestamps self) (topic_counters self)
        (match history !! topic with
         | Some _ => history
         | None => <[topic := []]> history
         end)
  | 3%nat =>
      mkChecker (topics self) (topic_descriptions self) (topic_types self)
        (topic_timestamps self) (topic_counters self)
        (<[topic := (dict_get history topic [] ++ [current_time])%list]>
           history)
  | 4%nat =>
      mkChecker (topics self) (topic_descriptions self) (topic_types self)
        (topic_timestamps self) (topic_counters self)
        (if max_history_size <? Z.of_nat (length (dict_get history topic []))
         then <[topic := last_n max_history_size (dict_get history topic [])]>
                history
         else history)
  | _ => self
  end.

(** The checker after the first [k] statements of the block. *)
Fixpoint on_message_upto (k : nat) (topic : string)
    (current_time : datetime) (self : checker) : checker :=
  match k with
  | O => self
  | S k' =>
      on_message_stmt k' topic current_time
        (on_message_upto k' topic current_time self)
  end.

(** Where a thread stands in [on_message]: before the block, inside it
    with [done] statements behind it, or past it. *)
Inductive writer_pc :=
  | WBefore
  | WIn (done : nat)
  | WAfter.

(** Where a thread stands in [get_status_data]: before the block, inside
    the loop with the topics still to visit and the list built so far, or
    past the block with the list it returns. *)
Inductive reader_pc :=
  | RBefore
  | RIn (todo : list string) (status_data : list status)
  | RAfter (status_data : list status).

(** A thread runs [on_message] for one message, with the time it read on
    entry, or [get_status_data], with the time it read on entry. *)
Inductive thread :=
  | Writer (topic : string) (current_time : datetime) (pc : writer_pc)
  | Reader (current_time : datetime) (pc : reader_pc).

(** The shared checker, the thread that holds [self.lock] if any, and the
    threads. *)
Record config := mkConfig {
  shared : checker;
  lock : option nat;
  threads : list thread
}.

(** The next step of thread [i], when it can take one: entering the
    block needs the lock to be free. *)
Definition step_thread (i : nat) (self : checker) (lk : option nat)
    (th : thread) : option (checker * option nat * thread) :=
  match th with
  | Writer topic t WBefore =>
      match lk with
      | None => Some (self, Some i, Writer topic t (WIn 0))
      | Some _ => None
      end
  | Writer topic t (WIn k) =>
      if (k <? 5)%nat
      then Some (on_message_stmt k topic t self, lk, Writer topic t (WIn (S k)))
      else Some (self, None, Writer topic t WAfter)
  | Writer _ _ WAfter => None
  | Reader now RBefore =>
      match lk with
      | None => Some (self, Some i, Reader now (RIn (topics self) []))
      | Some _ => None
      end
  | Reader now (RIn (topic :: todo) acc) =>
      Some (self, lk,
            Reader now (RIn todo (acc ++ [topic_status self now topic])%list))
  | Reader now (RIn [] acc) => Some (self, None, Reader now (RAfter acc))
  | Reader _ (RAfter _) => None
  end.

Definition step_at (i : nat) (c : config) : option config :=
  match threads c !! i with
  | Some th =>
      match step_thread i (shared c) (lock c) th with
      | Some (self', lk', th') =>
          Some (mkConfig self' lk' (<[i := th']> (threads c)))
      | None => None
      end
  | None => None
  end.

(** The configuration after the threads named in [schedule] have taken
    one step each, in that order; [None] when one of them cannot. *)
Fixpoint run_schedule (schedule : list nat) (c : config) : option config :=
  match schedule with
  | [] => Some c
  | i :: rest =>
      match step_at i c with
      | Some c' => run_schedule rest c'
      | None => None
      end
  end.

Definition at_start (th : thread) : bool :=
  match th with
  | Writer _ _ WBefore | Reader _ RBefore => true
  | _ => false
  end.

Definition in_block (th : thread) : bool :=
  match th with
  | Writer _ _ (WIn _) | Reader _ (RIn _ _) => true
  | _ => false
  end.

Definition finished_event (th : thread) : option (string * datetime) :=
  match th with
  | Writer topic t WAfter => Some (topic, t)
  | _ => None
  end.

(** What holds of a configuration reached from the checker [self0], [log]
    being the messages whose block has been left, in the order of
    leaving. *)
Record consistent (self0 : checker) (c : config)
    (log : list (string * datetime)) : Prop := mkConsistent {
  holder_in_block :
    forall i th, threads c !! i = Some th ->
                 (in_block th = true <-> lock c = Some i);
  writer_progress :
    forall i topic t k,
      threads c !! i = Some (Writer topic t (WIn k)) ->
      (k <= 5)%nat /\
      shared c = on_message_upto k topic t (record_all self0 log);
  no_writer_inside :
    (forall i topic t k,
       threads c !! i <> Some (Writer topic t (WIn k))) ->
    shared c = record_all self0 log;
  reader_progress :
    forall i now todo acc,
      threads c !! i = Some (Reader now (RIn todo acc)) ->
      (acc ++ map (topic_status (shared c) now) todo)%list
      = get_status_data (shared c) now;
  reader_result :
    forall i now r,
      threads c !! i = Some (Reader now (RAfter r)) ->
      exists seen : list (string * datetime),
        seen `prefix_of` log /\
        r = get_status_data (record_all self0 seen) now;
  log_finished : log ≡ₚ omap finished_event (threads c)
}.

(** ** The connection callback and the status route *)

(** [on_connect]: the topics it calls [client.subscribe] with, in order;
    [rc] is the return code of the broker. *)
Definition on_connect (self : checker) (rc : Z) : list string :=
  if rc =? 0 then topics self else [].


(** ** Further definitions used to state properties *)

(** The identifier an element of the [topics] sequence stands for, if
    any. *)
Definition item_topic (it : item) : option string :=
  match it with
  | ItemStr s => Some s
  | ItemDict d =>
      if nonempty (dict_get d "topic" "") then Some (dict_get d "topic" "")
      else None
  | ItemOther => None
  end.

(** [c in s] for a character [c]. *)
Fixpoint has_char (c : ascii) (s : string) : bool :=
  match s with
  | EmptyString => false
  | String x s' => Ascii.eqb x c || has_char c s'
  end.

(** The value of [Str.parse_digits] on a string of digits. *)
Fixpoint digits_value (acc : Z) (s : string) : Z :=
  match s with
  | EmptyString => acc
  | String c s' => digits_value (10 * acc + Str.digit_val c) s'
  end.

(** Ten times the magnitude of a finite float, rounded to the nearest
    integer, ties to even: the digits [F.format_1f] writes. *)
Definition tenths (m : positive) (e : Z) : Z :=
  if 0 <=? e then Zpos m * 2 ^ e * 10
  else F.round_half_even (Zpos m * 10) (2 ^ (- e)).

(** A thread past its method. *)
Definition finished (th : thread) : bool :=
  match th with
  | Writer _ _ WAfter | Reader _ (RAfter _) => true
  | _ => false
  end.

(** * Properties *)

(** ** Strings *)

Lemma str_app_cons (x : ascii) (a b : string) :
  String x a ++ b = String x (a ++ b).
Proof. reflexivity. Qed.

Lemma str_app_nil (b : string) : "" ++ b = b.
Proof. reflexivity. Qed.

Lemma str_app_assoc (a b c : string) : (a ++ b) ++ c = a ++ b ++ c.
Proof.
  induction a as [|x a IH]; [reflexivity|].
  rewrite !str_app_cons, IH. reflexivity.
Qed.

Lemma str_length_app (a b : string) :
  String.length (a ++ b) = (String.length a + String.length b)%nat.
Proof.
  induction a as [|x a IH]; [reflexivity|].
  rewrite str_app_cons. cbn [String.length]. rewrite IH. reflexivity.
Qed.

Lemma unsnoc_app_char (a : string) (c : ascii) :
  Str.unsnoc (a ++ String c "") = Some (a, c).
Proof.
  induction a as [|x a IH]; [reflexivity|].
  rewrite str_app_cons. cbn [Str.unsnoc]. rewrite IH. reflexivity.
Qed.

Lemma endswith_app_char (a : string) (c c' : ascii) :
  Str.endswith (a ++ String c "") c' = Ascii.eqb c c'.
Proof. unfold Str.endswith. rewrite unsnoc_app_char. reflexivity. Qed.

Lemma init_app_char (a : string) (c : ascii) :
  Str.init (a ++ String c "") = a.
Proof. unfold Str.init. rewrite unsnoc_app_char. reflexivity. Qed.

Lemma app_char_not_no_data (a : string) (c : ascii) :
  c <> "a"%char -> a ++ String c "" <> "No data".
Proof.
  intros Hc E. apply (f_equal Str.unsnoc) in E.
  rewrite unsnoc_app_char in E. cbn in E. congruence.
Qed.

Lemma substring_all (s : string) : substring 0 (String.length s) s = s.
Proof. induction s as [|x s IH]; cbn; [reflexivity|]. rewrite IH. reflexivity. Qed.

Lemma substring_skip (a b : string) (n : nat) :
  substring (String.length a) n (a ++ b) = substring 0 n b.
Proof.
  induction a as [|x a IH]; [reflexivity|].
  rewrite str_app_cons. cbn [String.length substring]. exact IH.
Qed.

Lemma is_digit_digit (d : Z) : 0 <= d <= 9 -> Str.is_digit (Str.digit d) = true.
Proof.
  intros H.
  assert (d = 0 \/ d = 1 \/ d = 2 \/ d = 3 \/ d = 4 \/ d = 5 \/ d = 6 \/
          d = 7 \/ d = 8 \/ d = 9) as Hd by lia.
  repeat (destruct Hd as [-> | Hd]; [reflexivity|]). subst. reflexivity.
Qed.

Lemma all_digits_digits (fuel : nat) (n : Z) (acc : string) :
  all_digits acc = true -> all_digits (Str.digits fuel n acc) = true.
Proof.
  revert n acc. induction fuel as [|fuel IH]; intros n acc Hacc; [exact Hacc|].
  cbn [Str.digits].
  assert (all_digits (String (Str.digit (n mod 10)) acc) = true) as H.
  { cbn [all_digits]. rewrite Hacc, is_digit_digit; [reflexivity|].
    pose proof (Z.mod_pos_bound n 10). lia. }
  destruct (n / 10 =? 0); [exact H | apply IH, H].
Qed.

Lemma digits_nonempty (fuel : nat) (n : Z) (acc : string) :
  acc <> "" -> Str.digits fuel n acc <> "".
Proof.
  revert n acc. induction fuel as [|fuel IH]; intros n acc Hacc; [exact Hacc|].
  cbn [Str.digits]. destruct (n / 10 =? 0); [discriminate|].
  apply IH. discriminate.
Qed.

Lemma all_digits_of_N (n : Z) : all_digits (Str.of_N n) = true.
Proof. apply all_digits_digits. reflexivity. Qed.

Lemma of_N_nonempty (n : Z) : Str.of_N n <> "".
Proof.
  unfold Str.of_N. cbn [Str.digits].
  destruct (n / 10 =? 0); [discriminate|]. apply digits_nonempty. discriminate.
Qed.


Lemma before_point_digits (a b : string) :
  all_digits a = true -> Str.before "." (a ++ String "." b) = a.
Proof.
  induction a as [|c a IH]; intros Hd; [reflexivity|].
  cbn [all_digits] in Hd. apply andb_true_iff in Hd as [Hc Hs].
  rewrite str_app_cons. cbn [Str.before].
  destruct (Ascii.eqb_spec c ".") as [->|]; [discriminate|].
  rewrite IH by exact Hs. reflexivity.
Qed.

Lemma of_N_one_digit (k : Z) :
  0 <= k <= 9 -> Str.of_N k = String (Str.digit k) "".
Proof.
  intros H. unfold Str.of_N. cbn [Str.digits].
  rewrite Z.div_small, Z.mod_small by lia. reflexivity.
Qed.

Lemma format_1f_one_decimal (x : F.float) :
  x <> S754_nan -> (forall s, x <> S754_infinity s) ->
  exists (ip : string) (d : ascii),
    F.format_1f x = ip ++ "." ++ String d "" /\ Str.is_digit d = true.
Proof.
  intros Hnan Hinf. destruct x as [s|s| |s m e].
  - exists (F.sign_str s ++ "0"), "0"%char.
    split; [|reflexivity]. destruct s; reflexivity.
  - destruct (Hinf s eq_refl).
  - contradiction.
  - unfold F.format_1f.
    match goal with |- context [Str.of_N (?n mod 10)] =>
      pose proof (Z.mod_pos_bound n 10 ltac:(lia)) as Hb;
      exists (F.sign_str s ++ Str.of_N (n / 10)), (Str.digit (n mod 10));
      rewrite (of_N_one_digit (n mod 10)) by lia
    end.
    split; [rewrite !str_app_assoc; reflexivity|].
    apply is_digit_digit. lia.
Qed.

Lemma digit_val_digit (d : Z) : 0 <= d <= 9 -> Str.digit_val (Str.digit d) = d.
Proof.
  intros H.
  assert (d = 0 \/ d = 1 \/ d = 2 \/ d = 3 \/ d = 4 \/ d = 5 \/ d = 6 \/
          d = 7 \/ d = 8 \/ d = 9) as Hd by lia.
  repeat (destruct Hd as [-> | Hd]; [reflexivity|]). subst. reflexivity.
Qed.

Lemma parse_digits_value (s : string) (acc : Z) :
  s <> "" -> all_digits s = true ->
  Str.parse_digits acc s = Some (digits_value acc s).
Proof.
  revert acc. induction s as [|c s IH]; intros acc Hne Hd; [contradiction|].
  cbn [all_digits] in Hd. apply andb_true_iff in Hd as [Hc Hs].
  cbn [Str.parse_digits digits_value]. rewrite Hc.
  destruct s as [|c' s']; [reflexivity|]. apply IH; [discriminate|exact Hs].
Qed.

Lemma digits_value_digits (fuel : nat) (n : Z) (acc : string) :
  0 <= n < 10 ^ Z.of_nat fuel ->
  digits_value 0 (Str.digits fuel n acc) = digits_value n acc.
Proof.
  revert n acc. induction fuel as [|fuel IH]; intros n acc Hn.
  - cbn in Hn. assert (n = 0) as -> by lia. reflexivity.
  - cbn [Str.digits].
    pose proof (Z.div_mod n 10 ltac:(lia)) as Hdm.
    pose proof (Z.mod_pos_bound n 10 ltac:(lia)) as Hm.
    assert (digits_value 0 (String (Str.digit (n mod 10)) acc)
            = digits_value (n mod 10) acc) as E0.
    { cbn [digits_value]. rewrite digit_val_digit by lia. reflexivity. }
    destruct (Z.eqb_spec (n / 10) 0) as [Hz|Hnz].
    + rewrite E0. f_equal. lia.
    + rewrite IH.
      * cbn [digits_value]. rewrite digit_val_digit by lia. f_equal. lia.
      * rewrite Nat2Z.inj_succ, Z.pow_succ_r in Hn by lia.
        split; [apply Z.div_pos; lia|].
        apply Z.div_lt_upper_bound; lia.
Qed.

Lemma of_N_value (n : Z) : 0 <= n -> digits_value 0 (Str.of_N n) = n.
Proof.
  intros Hn. unfold Str.of_N. rewrite digits_value_digits; [reflexivity|].
  split; [exact Hn|].
  destruct (Z.eq_dec n 0) as [->|Hnz]; [apply Z.pow_pos_nonneg; lia|].
  rewrite Nat2Z.inj_succ, Z2Nat.id by apply Z.log2_nonneg.
  pose proof (Z.log2_spec n ltac:(lia)) as [_ Hlt].
  assert (2 ^ Z.succ (Z.log2 n) <= 10 ^ Z.succ (Z.log2 n)) as Hle
    by (apply Z.pow_le_mono_l; lia).
  lia.
Qed.

Lemma round_half_even_nearest (num den : Z) :
  0 <= num -> 0 < den ->
  let n := F.round_half_even num den in
  0 <= n /\
  Z.abs (2 * num - 2 * n * den) <= den /\
  (Z.abs (2 * num - 2 * n * den) = den -> Z.even n = true).
Proof.
  intros Hnum Hden n. subst n. unfold F.round_half_even.
  pose proof (Z.div_mod num den ltac:(lia)) as Hdm.
  pose proof (Z.mod_pos_bound num den Hden) as Hr.
  pose proof (Z.div_pos num den Hnum Hden) as Hq.
  set (q := num / den) in *. set (r := num mod den) in *.
  destruct (Z.compare_spec (2 * r) den) as [E|L|G].
  - destruct (Z.even q) eqn:Ev.
    + split; [lia|]. split; [|intros _; exact Ev].
      replace (2 * num - 2 * q * den) with (2 * r) by lia. lia.
    + split; [lia|]. split.
      * replace (2 * num - 2 * (q + 1) * den) with (2 * r - 2 * den) by lia.
        lia.
      * intros _. rewrite Z.even_add, Ev. reflexivity.
  - split; [lia|].
    replace (2 * num - 2 * q * den) with (2 * r) by lia. split; lia.
  - split; [lia|].
    replace (2 * num - 2 * (q + 1) * den) with (2 * r - 2 * den) by lia.
    split; lia.
Qed.

Lemma format_1f_value (s : bool) (m : positive) (e : Z) :
  exists (n : Z) (ip : string) (d : ascii),
    F.format_1f (S754_finite s m e)
    = F.sign_str s ++ ip ++ "." ++ String d "" /\
    ip <> "" /\ all_digits ip = true /\ digits_value 0 ip = n / 10 /\
    Str.is_digit d = true /\ Str.digit_val d = n mod 10 /\
    0 <= n /\
    (0 <= e -> n = 10 * (Zpos m * 2 ^ e)) /\
    (e < 0 ->
     Z.abs (2 * (10 * Zpos m) - 2 * n * 2 ^ (- e)) <= 2 ^ (- e) /\
     (Z.abs (2 * (10 * Zpos m) - 2 * n * 2 ^ (- e)) = 2 ^ (- e) ->
      Z.even n = true)).
Proof.
  unfold F.format_1f.
  set (n := if 0 <=? e then Zpos m * 2 ^ e * 10
            else F.round_half_even (Zpos m * 10) (2 ^ (- e))).
  assert (0 <= n /\
          (0 <= e -> n = 10 * (Zpos m * 2 ^ e)) /\
          (e < 0 ->
           Z.abs (2 * (10 * Zpos m) - 2 * n * 2 ^ (- e)) <= 2 ^ (- e) /\
           (Z.abs (2 * (10 * Zpos m) - 2 * n * 2 ^ (- e)) = 2 ^ (- e) ->
            Z.even n = true))) as (Hn & Hpos & Hneg).
  { subst n. destruct (Z.leb_spec 0 e) as [He|He].
    - pose proof (Z.pow_pos_nonneg 2 e ltac:(lia) He).
      split; [lia|]. split; [lia|lia].
    - assert (0 < 2 ^ (- e)) as Hp by (apply Z.pow_pos_nonneg; lia).
      destruct (round_half_even_nearest (Zpos m * 10) (2 ^ (- e))
                  ltac:(lia) Hp) as (H0 & H1 & H2).
      replace (10 * Zpos m) with (Zpos m * 10) by lia.
      split; [exact H0|]. split; [lia|]. intros _. split; assumption. }
  pose proof (Z.mod_pos_bound n 10 ltac:(lia)) as Hm.
  assert (0 <= n / 10) as Hq by (apply Z.div_pos; lia).
  exists n, (Str.of_N (n / 10)), (Str.digit (n mod 10)).
  rewrite (of_N_one_digit (n mod 10)) by lia.
  split; [reflexivity|].
  split; [apply of_N_nonempty|]. split; [apply all_digits_of_N|].
  split; [apply of_N_value, Hq|].
  split; [apply is_digit_digit; lia|].
  split; [apply digit_val_digit; lia|].
  split; [exact Hn|]. split; assumption.
Qed.

(** ** Time arithmetic *)

Lemma sub_to_us (a b : datetime) : DT.sub a b = to_us a - to_us b.
Proof. unfold DT.sub, DT.make, to_us, DT.us_per_second. lia. Qed.

Lemma sub_self (t : datetime) : DT.sub t t = 0.
Proof. rewrite sub_to_us. lia. Qed.

Lemma sub_chain (a b c : datetime) :
  DT.sub c b = DT.sub c a - DT.sub b a.
Proof. rewrite !sub_to_us. lia. Qed.

Lemma truthy_nonzero (d : timedelta) : DT.truthy d = true <-> d <> 0.
Proof.
  unfold DT.truthy, DT.days, DT.seconds, DT.microseconds,
    DT.us_per_day, DT.us_per_second.
  pose proof (Z.div_mod d (86400 * 1000000) ltac:(lia)) as Hd.
  pose proof (Z.div_mod (d mod (86400 * 1000000)) 1000000 ltac:(lia)) as Hs.
  rewrite !orb_true_iff, !negb_true_iff, !Z.eqb_neq.
  split.
  - intros H ->. destruct H as [[H|H]|H]; apply H; reflexivity.
  - intros Hne.
    destruct (Z.eq_dec (d / (86400 * 1000000)) 0) as [E1|]; [|tauto].
    destruct (Z.eq_dec (d mod (86400 * 1000000) / 1000000) 0) as [E2|];
      [|tauto].
    right. lia.
Qed.

Lemma one_hour : DT.of_hours 1 = 3600 * 1000000.
Proof. reflexivity. Qed.

(** ** Classification *)

Lemma status_never_seen (self : checker) (now : datetime) (topic : string) :
  topic_timestamps self !! topic = None ->
  st_status (topic_status self now topic) = "never_seen".
Proof. intros H. unfold topic_status. rewrite H. reflexivity. Qed.

Lemma status_seen (self : checker) (now last : datetime) (topic : string) :
  topic_timestamps self !! topic = Some last ->
  st_status (topic_status self now topic) =
  if DT.sub now last <? 3600 * 1000000 then "healthy" else "unhealthy".
Proof. intros H. unfold topic_status. rewrite H, one_hour. reflexivity. Qed.

(** C3.  A channel without a last arrival is classified [never_seen]; one
    whose last arrival lies strictly less than one hour before [now] is
    [healthy]; any other is [unhealthy], also at exactly one hour. *)
Theorem classification_by_elapsed_time
    (self : checker) (now : datetime) (topic : string) :
  (topic_timestamps self !! topic = None ->
   st_status (topic_status self now topic) = "never_seen") /\
  (forall last : datetime,
     topic_timestamps self !! topic = Some last ->
     (to_us now - to_us last < 3600 * 1000000 ->
      st_status (topic_status self now topic) = "healthy") /\
     (3600 * 1000000 <= to_us now - to_us last ->
      st_status (topic_status self now topic) = "unhealthy") /\
     (to_us now - to_us last = 3600 * 1000000 ->
      st_status (topic_status self now topic) = "unhealthy")).
Proof.
  split; [apply status_never_seen|].
  intros last Hl. rewrite (status_seen _ _ _ _ Hl), sub_to_us.
  repeat split; intros H.
  - apply Z.ltb_lt in H. rewrite H. reflexivity.
  - apply Z.ltb_ge in H. rewrite H. reflexivity.
  - rewrite H. reflexivity.
Qed.

(** A channel last seen at noon, read at 12:59:59.999999 and at 13:00:00. *)
Lemma classification_by_elapsed_time_witness :
  let noon := DT.mk 2024 5 1 12 0 0 0 in
  let self := on_message empty_checker "a" noon in
  st_status (topic_status empty_checker noon "a") = "never_seen" /\
  st_status (topic_status self (DT.mk 2024 5 1 12 59 59 999999) "a")
    = "healthy" /\
  st_status (topic_status self (DT.mk 2024 5 1 13 0 0 0) "a") = "unhealthy".
Proof.
  intros noon self. split; [|split].
  - apply (classification_by_elapsed_time empty_checker noon "a").
    reflexivity.
  - apply (classification_by_elapsed_time self
             (DT.mk 2024 5 1 12 59 59 999999) "a") with (last := noon).
    + reflexivity.
    + vm_compute. reflexivity.
  - destruct (classification_by_elapsed_time self
                (DT.mk 2024 5 1 13 0 0 0) "a") as [_ H].
    destruct (H noon eq_refl) as (_ & _ & H1).
    apply H1. vm_compute. reflexivity.
Defined.

(** ** The elapsed-time field *)

Lemma strftime_not_never (t : datetime) : DT.strftime t <> "Never".
Proof.
  unfold DT.strftime.
  generalize (Str.of_N (DT.year t)) as y.
  generalize (Str.zpad 2 (DT.month t) ++ "-" ++ Str.zpad 2 (DT.day t) ++ " "
              ++ Str.zpad 2 (DT.hour t) ++ ":" ++ Str.zpad 2 (DT.minute t)
              ++ ":" ++ Str.zpad 2 (DT.second t)) as r.
  intros r y.
  do 6 (destruct y as [|? y]; [discriminate|];
        rewrite str_app_cons; intros [= -> H]; revert H);
  discriminate.
Qed.

Lemma time_since_seen (self : checker) (now last : datetime) (topic : string) :
  topic_timestamps self !! topic = Some last ->
  st_time_since (topic_status self now topic) =
  if DT.truthy (DT.sub now last)
  then Str.before "." (DT.to_string (DT.sub now last)) else "Never".
Proof. intros H. unfold topic_status. rewrite H. reflexivity. Qed.

Lemma last_seen_seen (self : checker) (now last : datetime) (topic : string) :
  topic_timestamps self !! topic = Some last ->
  st_last_seen (topic_status self now topic) = DT.strftime last.
Proof. intros H. unfold topic_status. rewrite H. reflexivity. Qed.

(** C9.  A channel with last arrival [last], read at the very time [last]:
    the elapsed time is the zero duration, which is false as a truth value,
    so [time_since] is ["Never"], while [last_seen] is the arrival time and
    the status is ["healthy"].  At any other reading time [time_since] is
    the elapsed duration cut at its decimal point. *)
Theorem time_since_never_at_zero_elapsed
    (self : checker) (topic : string) (last : datetime) :
  topic_timestamps self !! topic = Some last ->
  let v := topic_status self last topic in
  st_time_since v = "Never" /\
  st_last_seen v = DT.strftime last /\
  st_last_seen v <> "Never" /\
  st_status v = "healthy" /\
  (forall now : datetime,
     to_us now <> to_us last ->
     st_time_since (topic_status self now topic) =
     Str.before "." (DT.to_string (DT.sub now last))).
Proof.
  intros H v. subst v.
  rewrite (time_since_seen _ _ _ _ H), (last_seen_seen _ _ _ _ H),
    (status_seen _ _ _ _ H), sub_self.
  repeat split.
  - apply strftime_not_never.
  - intros now Hne. rewrite (time_since_seen _ _ _ _ H).
    destruct (DT.truthy (DT.sub now last)) eqn:E; [reflexivity|].
    assert (DT.sub now last <> 0) as Hnz by (rewrite sub_to_us; lia).
    apply truthy_nonzero in Hnz. congruence.
Qed.

(** One arrival at noon, read at noon. *)
Lemma time_since_never_at_zero_elapsed_witness :
  let noon := DT.mk 2024 5 1 12 0 0 0 in
  let v := topic_status (on_message empty_checker "a" noon) noon "a" in
  st_time_since v = "Never" /\ st_last_seen v = "2024-05-01 12:00:00" /\
  st_message_count v = 1.
Proof.
  intros noon v.
  destruct (time_since_never_at_zero_elapsed
              (on_message empty_checker "a" noon) "a" noon eq_refl)
    as (H1 & H2 & _).
  split; [exact H1|]. split; [exact H2|]. reflexivity.
Defined.

(** ** The average interval *)

Lemma lookup_intervals (ts : list datetime) (i : nat) (a b : datetime) :
  ts !! i = Some a -> ts !! S i = Some b ->
  intervals ts !! i = Some (DT.total_seconds (DT.sub b a)).
Proof.
  revert i. induction ts as [|x [|y ts] IH]; intros i Ha Hb;
    [discriminate| destruct i; discriminate |].
  destruct i as [|i].
  - cbn in Ha, Hb. injection Ha as ->. injection Hb as ->. reflexivity.
  - cbn [intervals]. apply (IH i); assumption.
Qed.

Lemma length_intervals (ts : list datetime) :
  length (intervals ts) = (length ts - 1)%nat.
Proof.
  induction ts as [|x [|y ts] IH]; [reflexivity..|].
  cbn [intervals length] in *. lia.
Qed.

Lemma average_of_short (ts : list datetime) :
  (length ts < 2)%nat -> average_of ts = "No data".
Proof.
  intros H. unfold average_of.
  destruct (Nat.ltb_spec (length ts) 2); [reflexivity|lia].
Qed.

Lemma average_of_long (ts : list datetime) :
  (2 <= length ts)%nat ->
  average_of ts = format_interval (avg_seconds (intervals ts)).
Proof.
  intros H. unfold average_of.
  destruct (Nat.ltb_spec (length ts) 2); [lia|].
  pose proof (length_intervals ts) as L.
  destruct (intervals ts); [cbn in L; lia|reflexivity].
Qed.

(** C2, as the program computes it.  On the history [t, t+30s, t+90s] the
    consecutive deltas are 30 and 60 seconds, their mean is 45 seconds and
    the result is ["45.0s"]. *)
Theorem average_interval_30_90 (t t1 t2 : datetime) :
  to_us t1 = to_us t + 30 * 1000000 ->
  to_us t2 = to_us t + 90 * 1000000 ->
  intervals [t; t1; t2] = [F.of_Z 30; F.of_Z 60] /\
  avg_seconds (intervals [t; t1; t2]) = F.of_Z 45 /\
  average_of [t; t1; t2] = "45.0s".
Proof.
  intros H1 H2.
  assert (intervals [t; t1; t2] = [F.of_Z 30; F.of_Z 60]) as E.
  { cbn [intervals]. rewrite !sub_to_us.
    replace (to_us t1 - to_us t) with 30000000 by lia.
    replace (to_us t2 - to_us t1) with 60000000 by lia.
    vm_compute. reflexivity. }
  split; [exact E|].
  rewrite average_of_long by (cbn; lia).
  rewrite E. split; vm_compute; reflexivity.
Qed.

Lemma average_interval_30_90_witness :
  average_of [DT.mk 2024 5 1 12 0 0 0; DT.mk 2024 5 1 12 0 30 0;
              DT.mk 2024 5 1 12 1 30 0] = "45.0s".
Proof.
  apply (average_interval_30_90 (DT.mk 2024 5 1 12 0 0 0)
           (DT.mk 2024 5 1 12 0 30 0) (DT.mk 2024 5 1 12 1 30 0));
    vm_compute; reflexivity.
Defined.

(** C2, as the specification words it, fails: the history
    [12:00:00, 12:00:30, 12:01:30] does not give ["30.0s"], and the mean of
    its deltas is not 30 seconds. *)
Lemma average_interval_30_90_not_30 :
  let t := DT.mk 2024 5 1 12 0 0 0 in
  let t1 := DT.mk 2024 5 1 12 0 30 0 in
  let t2 := DT.mk 2024 5 1 12 1 30 0 in
  to_us t1 = to_us t + 30 * 1000000 /\
  to_us t2 = to_us t + 90 * 1000000 /\
  avg_seconds (intervals [t; t1; t2]) <> F.of_Z 30 /\
  average_of [t; t1; t2] <> "30.0s".
Proof. vm_compute. repeat split; discriminate. Qed.

Lemma calculate_average_interval_lookup (self : checker) (topic : string)
    (ts : list datetime) :
  topic_message_history self !! topic = Some ts ->
  _calculate_average_interval self topic = average_of ts.
Proof. intros H. unfold _calculate_average_interval. rewrite H. reflexivity. Qed.

Lemma interval_is_spec_delta (ts : list datetime) (k : nat) :
  (k < length (intervals ts))%nat ->
  intervals ts !! k = Some (spec_delta ts (S k)).
Proof.
  intros Hk. rewrite length_intervals in Hk.
  destruct (lookup_lt_is_Some_2 ts k ltac:(lia)) as [a Ha].
  destruct (lookup_lt_is_Some_2 ts (S k) ltac:(lia)) as [b Hb].
  rewrite (lookup_intervals ts k a b Ha Hb).
  unfold spec_delta. replace (S k - 1)%nat with k by lia.
  rewrite Ha, Hb. unfold DT.total_seconds. rewrite sub_to_us. reflexivity.
Qed.

Lemma sum_of_prefix (ts : list datetime) (k : nat) :
  (k <= length (intervals ts))%nat ->
  fold_left F.add (firstn k (intervals ts)) (F.of_Z 0) = spec_sum_deltas ts k.
Proof.
  induction k as [|k IH]; intros Hk; [reflexivity|].
  rewrite (take_S_r _ _ _ (interval_is_spec_delta ts k ltac:(lia))).
  rewrite fold_left_app, IH by lia. reflexivity.
Qed.

Lemma avg_seconds_spec_mean (ts : list datetime) :
  avg_seconds (intervals ts) = spec_mean_delta ts.
Proof.
  unfold avg_seconds, spec_mean_delta, fsum.
  rewrite <- (sum_of_prefix ts (length ts - 1))
    by (rewrite length_intervals; lia).
  rewrite <- length_intervals, firstn_all. reflexivity.
Qed.

(** C4.  With no history or fewer than two entries the average interval is
    ["No data"].  With two or more it is the formatted mean of the deltas
    of all consecutive pairs of the history, in seconds: their sum from
    the first pair to the last, divided by their number.  The mean is
    written with one decimal, the nearest tenth with ties to the even one,
    as seconds below 60, as minutes below 3600, as hours below 86400, and
    as days from there on, so that a mean of exactly 60 seconds is written
    in minutes. *)
Theorem average_interval_by_magnitude :
  (forall (self : checker) (topic : string),
     topic_message_history self !! topic = None ->
     _calculate_average_interval self topic = "No data") /\
  (forall (self : checker) (topic : string) (ts : list datetime),
     topic_message_history self !! topic = Some ts ->
     (length ts < 2)%nat ->
     _calculate_average_interval self topic = "No data") /\
  (forall (self : checker) (topic : string) (ts : list datetime),
     topic_message_history self !! topic = Some ts ->
     (2 <= length ts)%nat ->
     _calculate_average_interval self topic
       = format_interval (avg_seconds (intervals ts)) /\
     length (intervals ts) = (length ts - 1)%nat /\
     (forall (i : nat) (a b : datetime),
        ts !! i = Some a -> ts !! S i = Some b ->
        intervals ts !! i
          = Some (F.int_true_div (to_us b - to_us a) 1000000)) /\
     _calculate_average_interval self topic
       = format_interval (spec_mean_delta ts)) /\
  (forall x : F.float,
     (F.ltb x (F.of_Z 60) = true ->
      format_interval x = F.format_1f x ++ "s") /\
     (F.ltb x (F.of_Z 60) = false -> F.ltb x (F.of_Z 3600) = true ->
      format_interval x = F.format_1f (F.div x (F.of_Z 60)) ++ "m") /\
     (F.ltb x (F.of_Z 3600) = false -> F.ltb x (F.of_Z 86400) = true ->
      F.ltb x (F.of_Z 60) = false ->
      format_interval x = F.format_1f (F.div x (F.of_Z 3600)) ++ "h") /\
     (F.ltb x (F.of_Z 86400) = false -> F.ltb x (F.of_Z 3600) = false ->
      F.ltb x (F.of_Z 60) = false ->
      format_interval x = F.format_1f (F.div x (F.of_Z 86400)) ++ "d")) /\
  (forall x : F.float,
     x <> S754_nan -> (forall s, x <> S754_infinity s) ->
     exists (ip : string) (d : ascii),
       F.format_1f x = ip ++ "." ++ String d "" /\ Str.is_digit d = true) /\
  (forall (s : bool) (m : positive) (e : Z),
     exists (n : Z) (ip : string) (d : ascii),
       F.format_1f (S754_finite s m e)
       = F.sign_str s ++ ip ++ "." ++ String d "" /\
       ip <> "" /\ all_digits ip = true /\ digits_value 0 ip = n / 10 /\
       Str.is_digit d = true /\ Str.digit_val d = n mod 10 /\
       0 <= n /\
       (0 <= e -> n = 10 * (Zpos m * 2 ^ e)) /\
       (e < 0 ->
        Z.abs (2 * (10 * Zpos m) - 2 * n * 2 ^ (- e)) <= 2 ^ (- e) /\
        (Z.abs (2 * (10 * Zpos m) - 2 * n * 2 ^ (- e)) = 2 ^ (- e) ->
         Z.even n = true))) /\
  (forall t0 t1 t2 t3 : datetime,
     to_us t1 = to_us t0 + 10 * 1000000 ->
     to_us t2 = to_us t0 + 40 * 1000000 ->
     to_us t3 = to_us t0 + 100 * 1000000 ->
     spec_mean_delta [t0; t1; t2; t3] = F.int_true_div 100 3 /\
     average_of [t0; t1; t2; t3] = "33.3s") /\
  format_interval (F.of_Z 60) = "1.0m" /\
  format_interval (F.of_Z 3600) = "1.0h" /\
  format_interval (F.of_Z 86400) = "1.0d".
Proof.
  split; [|split; [|split; [|split; [|split; [exact format_1f_one_decimal|
    split; [exact format_1f_value|split]]]]]].
  - intros self topic H. unfold _calculate_average_interval.
    rewrite H. reflexivity.
  - intros self topic ts H L.
    rewrite (calculate_average_interval_lookup _ _ _ H).
    apply average_of_short, L.
  - intros self topic ts H L.
    rewrite (calculate_average_interval_lookup _ _ _ H).
    split; [apply average_of_long, L|].
    split; [apply length_intervals|].
    split.
    + intros i a b Ha Hb. rewrite (lookup_intervals ts i a b Ha Hb).
      unfold DT.total_seconds. rewrite sub_to_us. reflexivity.
    + rewrite <- avg_seconds_spec_mean. apply average_of_long, L.
  - intros x. unfold format_interval.
    repeat split; intros; repeat match goal with
      | H : F.ltb _ _ = _ |- _ => rewrite H; clear H end; reflexivity.
  - intros t0 t1 t2 t3 H1 H2 H3.
    assert (spec_mean_delta [t0; t1; t2; t3] = F.int_true_div 100 3) as E.
    { unfold spec_mean_delta, spec_sum_deltas, spec_delta.
      cbn [length Nat.sub lookup list_lookup].
      replace (to_us t1 - to_us t0) with 10000000 by lia.
      replace (to_us t2 - to_us t1) with 30000000 by lia.
      replace (to_us t3 - to_us t2) with 60000000 by lia.
      vm_compute. reflexivity. }
    split; [exact E|].
    rewrite average_of_long by (cbn; lia).
    rewrite avg_seconds_spec_mean, E. vm_compute. reflexivity.
  - vm_compute. repeat split; reflexivity.
Qed.

(** Two arrivals one minute apart, and a single arrival. *)
Lemma average_interval_by_magnitude_witness :
  let t := DT.mk 2024 5 1 12 0 0 0 in
  let t1 := DT.mk 2024 5 1 12 1 0 0 in
  _calculate_average_interval empty_checker "a" = "No data" /\
  _calculate_average_interval (on_message empty_checker "a" t) "a"
    = "No data" /\
  _calculate_average_interval
    (on_message (on_message empty_checker "a" t) "a" t1) "a" = "1.0m".
Proof.
  intros t t1.
  destruct average_interval_by_magnitude as (H0 & H1 & H2 & _).
  split; [apply H0; reflexivity|].
  split; [apply (H1 _ _ [t]); [reflexivity | cbn; lia]|].
  destruct (H2 (on_message (on_message empty_checker "a" t) "a" t1) "a"
              [t; t1] eq_refl ltac:(cbn; lia)) as (E & _).
  rewrite E. vm_compute. reflexivity.
Defined.

(** ** Recording arrivals *)

Lemma keep_last_length {A} (n : nat) (l : list A) :
  length (keep_last n l) = Nat.min (length l) n.
Proof. unfold keep_last. rewrite length_skipn. lia. Qed.

Lemma keep_last_app {A} (n : nat) (l r : list A) :
  keep_last n (keep_last n l ++ r) = keep_last n (l ++ r).
Proof.
  unfold keep_last.
  rewrite !length_app, length_skipn.
  rewrite !skipn_app, length_skipn, skipn_skipn.
  f_equal; f_equal; lia.
Qed.

Lemma keep_last_all {A} (n : nat) (l : list A) :
  (length l <= n)%nat -> keep_last n l = l.
Proof.
  intros H. unfold keep_last.
  replace (length l - n)%nat with 0%nat by lia. reflexivity.
Qed.

Lemma history_after_on_message (self : checker) (topic : string)
    (t : datetime) :
  topic_message_history (on_message self topic t) =
  <[topic := keep_last 100
               (dict_get (topic_message_history self) topic [] ++ [t])]>
    (topic_message_history self).
Proof.
  unfold on_message. cbn [topic_message_history].
  set (h := topic_message_history self).
  assert (dict_get
            match h !! topic with
            | Some _ => h
            | None => <[topic := []]> h
            end topic [] = dict_get h topic []) as E.
  { unfold dict_get. destruct (h !! topic) eqn:Hh.
    - rewrite Hh. reflexivity.
    - rewrite lookup_insert_eq. reflexivity. }
  rewrite E.
  assert (<[topic := (dict_get h topic [] ++ [t])%list]>
            match h !! topic with
            | Some _ => h
            | None => <[topic := []]> h
            end = <[topic := (dict_get h topic [] ++ [t])%list]> h) as E2.
  { destruct (h !! topic); [reflexivity|]. apply insert_insert_eq. }
  rewrite E2.
  unfold dict_get at 1 3. rewrite !lookup_insert_eq.
  set (l := (dict_get h topic [] ++ [t])%list).
  unfold max_history_size.
  destruct (Z.ltb_spec 100 (Z.of_nat (length l))) as [Hlt|Hge].
  - rewrite insert_insert_eq. f_equal.
    unfold last_n, keep_last. cbn [Z.eqb]. f_equal. lia.
  - f_equal. symmetry. apply keep_last_all. lia.
Qed.

Lemma counters_after_on_message (self : checker) (topic : string)
    (t : datetime) :
  topic_counters (on_message self topic t) =
  <[topic := dict_get (topic_counters self) topic 0 + 1]>
    (topic_counters self).
Proof. reflexivity. Qed.

Lemma timestamps_after_on_message (self : checker) (topic : string)
    (t : datetime) :
  topic_timestamps (on_message self topic t) =
  <[topic := t]> (topic_timestamps self).
Proof. reflexivity. Qed.

Lemma dict_get_insert {A} (d : gmap string A) (k k' : string) (v x : A) :
  dict_get (<[k := v]> d) k' x = if String.eqb k k' then v else dict_get d k' x.
Proof.
  unfold dict_get. destruct (String.eqb_spec k k') as [->|Hne].
  - rewrite lookup_insert_eq. reflexivity.
  - rewrite lookup_insert_ne by assumption. reflexivity.
Qed.

Lemma record_all_cons (self : checker) (e : string * datetime)
    (events : list (string * datetime)) :
  record_all self (e :: events)
  = record_all (on_message self (fst e) (snd e)) events.
Proof. reflexivity. Qed.

Lemma counter_after_record_all (events : list (string * datetime))
    (self : checker) (topic : string) :
  dict_get (topic_counters (record_all self events)) topic 0
  = dict_get (topic_counters self) topic 0
    + Z.of_nat (length (arrivals topic events)).
Proof.
  revert self. induction events as [|[tp t] events IH]; intros self.
  - cbn. lia.
  - rewrite record_all_cons, IH. cbn [fst snd arrivals].
    rewrite counters_after_on_message, dict_get_insert.
    destruct (String.eqb_spec tp topic) as [->|Hne]; cbn [length]; lia.
Qed.

Lemma history_after_record_all (events : list (string * datetime))
    (self : checker) (topic : string) :
  (length (dict_get (topic_message_history self) topic []) <= 100)%nat ->
  dict_get (topic_message_history (record_all self events)) topic []
  = keep_last 100
      (dict_get (topic_message_history self) topic [] ++ arrivals topic events).
Proof.
  revert self. induction events as [|[tp t] events IH]; intros self Hlen.
  - cbn. rewrite app_nil_r. symmetry. apply keep_last_all, Hlen.
  - rewrite record_all_cons. cbn [fst snd arrivals].
    assert (dict_get (topic_message_history (on_message self tp t)) topic []
            = if String.eqb tp topic
              then keep_last 100
                     (dict_get (topic_message_history self) topic [] ++ [t])
              else dict_get (topic_message_history self) topic []) as E.
    { rewrite history_after_on_message, dict_get_insert.
      destruct (String.eqb_spec tp topic) as [->|]; reflexivity. }
    rewrite IH; rewrite E.
    + destruct (String.eqb tp topic); [|reflexivity].
      rewrite keep_last_app, <- app_assoc. reflexivity.
    + destruct (String.eqb tp topic); [|assumption].
      rewrite keep_last_length. lia.
Qed.

Lemma lookup_after_record_all {A} (f : checker -> gmap string A)
    (g : checker -> string -> datetime -> A)
    (Hf : forall s tp t, f (on_message s tp t) = <[tp := g s tp t]> (f s))
    (events : list (string * datetime)) (self : checker) (topic : string) :
  arrivals topic events <> [] ->
  is_Some (f (record_all self events) !! topic).
Proof.
  revert self. induction events as [|[tp t] events IH]; intros self Hne.
  - contradiction.
  - rewrite record_all_cons. cbn [fst snd arrivals] in *.
    destruct (arrivals topic events) as [|a l] eqn:Ea.
    + destruct (String.eqb_spec tp topic) as [->|]; [|contradiction].
      clear IH Hne. revert self.
      assert (forall s, is_Some (f s !! topic) ->
                is_Some (f (record_all s events) !! topic)) as Hkeep.
      { induction events as [|[tp' t'] events IH]; intros s Hs; [exact Hs|].
        rewrite record_all_cons. cbn [arrivals] in Ea.
        destruct (String.eqb_spec tp' topic) as [->|Hn]; [discriminate|].
        apply IH; [exact Ea|]. cbn [fst snd]. rewrite Hf.
        rewrite lookup_insert_ne by assumption. exact Hs. }
      intros self. apply Hkeep. rewrite Hf, lookup_insert_eq. eauto.
    + apply IH. discriminate.
Qed.

Lemma dict_get_lookup {A} (d : gmap string A) (k : string) (x : A) :
  is_Some (d !! k) -> d !! k = Some (dict_get d k x).
Proof. intros [v Hv]. unfold dict_get. rewrite Hv. reflexivity. Qed.

Lemma history_bounded_on_message (self : checker) (topic : string)
    (t : datetime) :
  (forall tp h, topic_message_history self !! tp = Some h ->
                (length h <= 100)%nat) ->
  forall tp h, topic_message_history (on_message self topic t) !! tp = Some h ->
               (length h <= 100)%nat.
Proof.
  intros Hb tp h. rewrite history_after_on_message.
  destruct (decide (topic = tp)) as [->|Hne].
  - rewrite lookup_insert_eq. intros [= <-]. rewrite keep_last_length. lia.
  - rewrite lookup_insert_ne by assumption. apply Hb.
Qed.

Lemma history_bounded_record_all (events : list (string * datetime))
    (self : checker) :
  (forall tp h, topic_message_history self !! tp = Some h ->
                (length h <= 100)%nat) ->
  forall tp h, topic_message_history (record_all self events) !! tp = Some h ->
               (length h <= 100)%nat.
Proof.
  revert self. induction events as [|[tp0 t] events IH]; intros self Hb;
    [exact Hb|].
  rewrite record_all_cons. apply IH, history_bounded_on_message, Hb.
Qed.

(** C5.  From a checker that has recorded nothing, after any sequence of
    arrivals of which [k >= 1] are on [topic]: the counter of [topic] is
    [k], its history has [min k 100] entries and is the last [min k 100]
    arrival times on [topic] in arrival order; no history has more than 100
    entries. *)
Theorem counter_and_history_after_arrivals
    (tps : list string) (descs tys : gmap string string)
    (events : list (string * datetime)) (topic : string) :
  let self := record_all (mkChecker tps descs tys ∅ ∅ ∅) events in
  let ts := arrivals topic events in
  let k := length ts in
  (1 <= k)%nat ->
  topic_counters self !! topic = Some (Z.of_nat k) /\
  (exists h : list datetime,
     topic_message_history self !! topic = Some h /\
     length h = Nat.min k 100 /\
     h = skipn (k - 100) ts /\
     (exists older : list datetime,
        ts = (older ++ h)%list /\ length older = (k - 100)%nat)) /\
  (forall (tp : string) (h : list datetime),
     topic_message_history self !! tp = Some h -> (length h <= 100)%nat).
Proof.
  intros self ts k Hk.
  assert (ts <> []) as Hne by (subst k; destruct ts; [cbn in Hk; lia|discriminate]).
  split; [|split].
  - rewrite (dict_get_lookup _ _ 0).
    + subst self. rewrite counter_after_record_all. reflexivity.
    + apply (lookup_after_record_all topic_counters
               (fun s tp _ => dict_get (topic_counters s) tp 0 + 1)
               counters_after_on_message); exact Hne.
  - exists (keep_last 100 ts).
    assert (dict_get (topic_message_history self) topic [] = keep_last 100 ts)
      as E.
    { subst self. rewrite history_after_record_all.
      - unfold dict_get. cbn [topic_message_history].
        rewrite lookup_empty. reflexivity.
      - unfold dict_get. cbn [topic_message_history].
        rewrite lookup_empty. cbn. lia. }
    split.
    { rewrite (dict_get_lookup _ _ []), E; [reflexivity|].
      apply (lookup_after_record_all topic_message_history
               (fun s tp t =>
                  keep_last 100
                    (dict_get (topic_message_history s) tp [] ++ [t]))
               history_after_on_message); exact Hne. }
    split; [apply keep_last_length|].
    split; [reflexivity|].
    exists (firstn (k - 100) ts). unfold keep_last. fold k.
    rewrite firstn_skipn. split; [reflexivity|].
    rewrite length_firstn. fold k. lia.
  - subst self. apply history_bounded_record_all.
    intros tp h. cbn. rewrite lookup_empty. discriminate.
Qed.

(** Three arrivals on ["a"] with one on ["b"] between them. *)
Lemma counter_and_history_after_arrivals_witness :
  let t (s : Z) := DT.mk 2024 5 1 12 0 s 0 in
  let self :=
    record_all empty_checker
      [("a", t 1); ("b", t 2); ("a", t 3); ("a", t 4)] in
  topic_counters self !! "a" = Some 3 /\
  topic_message_history self !! "a" = Some [t 1; t 3; t 4].
Proof.
  intros t self.
  destruct (counter_and_history_after_arrivals [] ∅ ∅
              [("a", t 1); ("b", t 2); ("a", t 3); ("a", t 4)] "a"
              ltac:(cbn; lia)) as (Hc & (h & Hh & _ & -> & _) & _).
  split; [exact Hc | exact Hh].
Defined.

(** ** Loading the registry *)




Lemma load_topics_items (self : checker) (l : list item) :
  load_topics self (Parsed (DocObject (Some (Items l)))) =
  Ok (mkChecker (fst (fst (load_items l))) (snd (fst (load_items l)))
        (snd (load_items l)) (topic_timestamps self) (topic_counters self)
        (topic_message_history self)).
Proof.
  unfold load_topics. destruct (load_items l) as [[ts ds] tys]. reflexivity.
Qed.





(** ** Labels *)

Lemma safe_topic_sanitize (topic : string) : safe_topic topic = sanitize topic.
Proof.
  unfold safe_topic. induction topic as [|c s IH]; [reflexivity|].
  cbn [Str.replace sanitize]. rewrite IH. f_equal.
  unfold sanitize_char.
  destruct (Ascii.eqb_spec c "/") as [->|]; [reflexivity|].
  destruct (Ascii.eqb_spec c "-") as [->|]; [reflexivity|].
  destruct (Ascii.eqb_spec c ".") as [->|]; [reflexivity|].
  destruct (Ascii.eqb_spec c ":") as [->|]; [reflexivity|].
  destruct (Ascii.eqb_spec c " ") as [->|]; reflexivity.
Qed.

(** C1, as the program has it.  For each channel the handler computes the
    identifier with every [/], [-], [.], [:] and blank replaced by an
    underscore (["sensors_temp_one"] for ["sensors/temp one"]); the display
    name and the type are written into the labels as they are. *)
Theorem safe_topic_and_verbatim_labels :
  (forall topic : string, safe_topic topic = sanitize topic) /\
  safe_topic "sensors/temp one" = "sensors_temp_one" /\
  (forall topic_data : status,
     exists topic_label : string,
       labels topic_data =
       topic_label ++ ",display_name=" ++ Str.dq
       ++ st_display_name topic_data ++ Str.dq
       ++ ",type=" ++ Str.dq ++ st_type topic_data ++ Str.dq).
Proof.
  split; [exact safe_topic_sanitize|]. split; [reflexivity|].
  intros td. unfold labels.
  exists ("topic=" ++ Str.dq ++ st_topic td ++ Str.dq).
  rewrite !str_app_assoc. reflexivity.
Qed.

(** C1, as the specification words it, fails: for a registry that holds the
    one channel ["sensors/temp one"] the document has no
    ["sensors_temp_one"] in it; a display name ["a/b"] is written as it
    is. *)
Lemma labels_not_sanitized :
  let now := DT.mk 2024 5 1 12 0 0 0 in
  (exists c doc,
     init (Parsed (DocObject (Some (Items [ItemStr "sensors/temp one"]))))
       = Ok c /\
     get_metrics mktime_utc (Some c) now = Ok doc /\
     contains "sensors_temp_one" doc = false /\
     contains ("topic=" ++ Str.dq ++ "sensors/temp one" ++ Str.dq) doc = true)
  /\
  (exists c doc,
     init (Parsed (DocObject (Some (Items
        [ItemDict {["topic" := "t"; "description" := "a/b"]}]))))
       = Ok c /\
     get_metrics mktime_utc (Some c) now = Ok doc /\
     contains ("display_name=" ++ Str.dq ++ "a_b" ++ Str.dq) doc = false /\
     contains ("display_name=" ++ Str.dq ++ "a/b" ++ Str.dq) doc = true).
Proof.
  intros now. split.
  - eexists. eexists. split; [vm_compute; reflexivity|].
    split; [vm_compute; reflexivity|].
    split; vm_compute; reflexivity.
  - eexists. eexists. split; [vm_compute; reflexivity|].
    split; [vm_compute; reflexivity|].
    split; vm_compute; reflexivity.
Qed.

(** ** Reading back what the formatter writes *)

Lemma substring_from (a b : string) (k n : nat) :
  substring (String.length a + k) n (a ++ b) = substring k n b.
Proof.
  induction a as [|x a IH]; [reflexivity|].
  rewrite str_app_cons. cbn [String.length substring Nat.add]. exact IH.
Qed.

Lemma digit_not_letter (c c' : ascii) :
  Str.is_digit c = true -> Str.is_digit c' = false -> Ascii.eqb c c' = false.
Proof.
  intros H H'. destruct (Ascii.eqb_spec c c') as [->|]; [congruence|reflexivity].
Qed.


Lemma of_string_not_minus (c : ascii) (r : string) :
  c <> "-"%char ->
  F.of_string (String c r) = (f ← F.parse_unsigned (String c r); Ok (f false)).
Proof.
  intros Hc. destruct c as [[] [] [] [] [] [] [] []];
    try reflexivity; contradiction.
Qed.


Lemma avg_interval_seconds_unit (body : string) :
  avg_interval_seconds (body ++ "s")
    = (x ← F.of_string body; Ok (Float x)) /\
  avg_interval_seconds (body ++ "m")
    = (x ← F.of_string body; Ok (Float (F.mul x (F.of_Z 60)))) /\
  avg_interval_seconds (body ++ "h")
    = (x ← F.of_string body; Ok (Float (F.mul x (F.of_Z 3600)))) /\
  avg_interval_seconds (body ++ "d")
    = (x ← F.of_string body; Ok (Float (F.mul x (F.of_Z 86400)))).
Proof.
  unfold avg_interval_seconds.
  repeat split;
    match goal with |- context [body ++ String ?c ""] =>
      assert (String.eqb (body ++ String c "") "No data" = false) as ->
        by (apply String.eqb_neq, app_char_not_no_data; discriminate)
    end;
    cbn [negb]; rewrite !endswith_app_char, init_app_char; reflexivity.
Qed.




(** ** Reading back a formatted time *)

Lemma zpad2_shape (n : Z) :
  0 <= n <= 99 ->
  exists a b, Str.zpad 2 n = String a (String b "") /\
              Str.parse_digits 0 (String a (String b "")) = Some n.
Proof.
  intros H.
  assert (forallb pad2_ok (seq 0 (Z.to_nat 100)) = true) as Hall by (vm_compute; reflexivity).
  rewrite forallb_forall in Hall.
  specialize (Hall (Z.to_nat n)).
  rewrite in_seq in Hall. specialize (Hall ltac:(lia)).
  unfold pad2_ok in Hall. rewrite Z2Nat.id in Hall by lia.
  destruct (Str.zpad 2 n) as [|a [|b [|]]]; try discriminate.
  exists a, b. split; [reflexivity|].
  destruct (Str.parse_digits 0 (String a (String b ""))); [|discriminate].
  apply Z.eqb_eq in Hall. congruence.
Qed.


Lemma days_in_month_le (y m : Z) : DT.days_in_month y m <= 31.
Proof.
  unfold DT.days_in_month. destruct ((m =? 2) && DT.is_leap y); [lia|].
  destruct (Z.to_nat m) as [|[|[|[|[|[|[|[|[|[|[|[|[|k]]]]]]]]]]]]]; cbn; try lia.
  destruct k; cbn; lia.
Qed.

Lemma valid_bounds (t : datetime) :
  DT.valid t = true ->
  1 <= DT.year t <= 9999 /\ 1 <= DT.month t <= 12 /\
  1 <= DT.day t <= DT.days_in_month (DT.year t) (DT.month t) /\
  0 <= DT.hour t <= 23 /\ 0 <= DT.minute t <= 59 /\ 0 <= DT.second t <= 59 /\
  0 <= DT.microsecond t <= 999999.
Proof.
  unfold DT.valid. rewrite !andb_true_iff, !Z.leb_le. tauto.
Qed.





Lemma year_short (n : Z) :
  0 <= n <= 999 -> (String.length (Str.of_N n) <= 3)%nat.
Proof.
  intros H.
  assert (forallb (fun k => (String.length (Str.of_N (Z.of_nat k)) <=? 3)%nat)
            (seq 0 (Z.to_nat 1000)) = true)
    as Hall by (vm_compute; reflexivity).
  rewrite forallb_forall in Hall.
  specialize (Hall (Z.to_nat n)).
  rewrite in_seq in Hall. specialize (Hall ltac:(lia)).
  rewrite Z2Nat.id in Hall by lia. apply Nat.leb_le, Hall.
Qed.


Lemma strptime_strftime_short (t : datetime) :
  DT.valid t = true -> DT.year t < 1000 ->
  DT.strptime (DT.strftime t) = Raise ValueError.
Proof.
  intros Hv Hlt.
  pose proof (valid_bounds t Hv) as (Hy & Hm & Hd & Hh & Hmi & Hs & _).
  pose proof (days_in_month_le (DT.year t) (DT.month t)) as Hdm.
  pose proof (year_short (DT.year t) ltac:(lia)) as Hlen.
  destruct (zpad2_shape (DT.month t)) as (m1 & m2 & Em & Pm); [lia|].
  destruct (zpad2_shape (DT.day t)) as (d1 & d2 & Ed & Pd); [lia|].
  destruct (zpad2_shape (DT.hour t)) as (h1 & h2 & Eh & Ph); [lia|].
  destruct (zpad2_shape (DT.minute t)) as (i1 & i2 & Ei & Pi); [lia|].
  destruct (zpad2_shape (DT.second t)) as (s1 & s2 & Es & Ps); [lia|].
  unfold DT.strptime.
  assert ((String.length (DT.strftime t) =? 19)%nat = false) as ->;
    [|reflexivity].
  apply Nat.eqb_neq. unfold DT.strftime.
  rewrite Em, Ed, Eh, Ei, Es, !str_length_app. cbn [String.length]. lia.
Qed.


(** ** The metrics document *)



Section MetricsFacts.

Variable mktime : datetime -> Z.

Lemma last_seen_timestamp_never :
  last_seen_timestamp mktime "Never" = Ok (Int 0).
Proof. reflexivity. Qed.



Lemma topic_lines_steps (topic_data : status) (ts avg : num) :
  last_seen_timestamp mktime (st_last_seen topic_data) = Ok ts ->
  avg_interval_seconds (st_avg_interval topic_data) = Ok avg ->
  topic_lines mktime topic_data =
  Ok ([ metric "mqtt_topic_last_seen_timestamp" (labels topic_data)
          (num_str ts);
        metric "mqtt_topic_message_count" (labels topic_data)
          (Str.of_Z (st_message_count topic_data));
        metric "mqtt_topic_healthy" (labels topic_data)
          (Str.of_Z (if String.eqb (st_status topic_data) "healthy"
                     then 1 else 0)) ]
      ++ (if num_pos avg
          then [ metric "mqtt_topic_avg_interval_seconds"
                   (labels topic_data) (num_str avg) ]
          else []))%list.
Proof. intros H1 H2. unfold topic_lines. rewrite H1, H2. reflexivity. Qed.




End MetricsFacts.







(** C10.  The exported average is read back from the formatted text of the
    average interval: the number before the unit letter, times 60, 3600 or
    86400 for minutes, hours or days.  So a mean of 61 seconds, written
    ["1.0m"], is exported as [60.0]; and the line is left out whenever the
    number read back is not positive, as for a mean of 0.04 seconds, written
    ["0.0s"]. *)
Theorem avg_interval_metric_read_back (mktime : datetime -> Z) :
  (forall body : string,
     avg_interval_seconds (body ++ "s")
       = (x ← F.of_string body; Ok (Float x)) /\
     avg_interval_seconds (body ++ "m")
       = (x ← F.of_string body; Ok (Float (F.mul x (F.of_Z 60)))) /\
     avg_interval_seconds (body ++ "h")
       = (x ← F.of_string body; Ok (Float (F.mul x (F.of_Z 3600)))) /\
     avg_interval_seconds (body ++ "d")
       = (x ← F.of_string body; Ok (Float (F.mul x (F.of_Z 86400))))) /\
  (forall (topic_data : status) (seen avg : num),
     last_seen_timestamp mktime (st_last_seen topic_data) = Ok seen ->
     avg_interval_seconds (st_avg_interval topic_data) = Ok avg ->
     exists l1 l2 l3,
       topic_lines mktime topic_data =
       Ok ([l1; l2; l3] ++
           (if num_pos avg
            then [ metric "mqtt_topic_avg_interval_seconds"
                     (labels topic_data) (num_str avg) ]
            else []))%list) /\
  (forall t t1 : datetime,
     to_us t1 = to_us t + 61 * 1000000 ->
     avg_seconds (intervals [t; t1]) = F.of_Z 61 /\
     average_of [t; t1] = "1.0m" /\
     avg_interval_seconds (average_of [t; t1]) = Ok (Float (F.of_Z 60)) /\
     num_str (Float (F.of_Z 60)) = "60.0") /\
  (forall t t1 : datetime,
     to_us t1 = to_us t + 40000 ->
     avg_seconds (intervals [t; t1]) = F.int_true_div 4 100 /\
     F.ltb (F.of_Z 0) (avg_seconds (intervals [t; t1])) = true /\
     average_of [t; t1] = "0.0s" /\
     exists z,
       avg_interval_seconds (average_of [t; t1]) = Ok (Float z) /\
       num_pos (Float z) = false).
Proof.
  split; [exact avg_interval_seconds_unit|]. split; [|split].
  - intros td seen avg H1 H2.
    rewrite (topic_lines_steps mktime td seen avg H1 H2).
    eexists _, _, _. reflexivity.
  - intros t t1 H.
    assert (intervals [t; t1] = [F.of_Z 61]) as E.
    { cbn [intervals]. rewrite sub_to_us.
      replace (to_us t1 - to_us t) with 61000000 by lia.
      vm_compute. reflexivity. }
    rewrite average_of_long by (cbn; lia). rewrite E.
    repeat split; vm_compute; reflexivity.
  - intros t t1 H.
    assert (intervals [t; t1] = [F.int_true_div 4 100]) as E.
    { cbn [intervals]. rewrite sub_to_us.
      replace (to_us t1 - to_us t) with 40000 by lia.
      vm_compute. reflexivity. }
    rewrite average_of_long by (cbn; lia). rewrite E.
    split; [vm_compute; reflexivity|].
    split; [vm_compute; reflexivity|].
    split; [vm_compute; reflexivity|].
    eexists. split; vm_compute; reflexivity.
Qed.

(** Two arrivals 61 seconds apart, read ten seconds later: the document
    gives the average as [60.0]. *)
Lemma avg_interval_metric_read_back_witness :
  let t := DT.mk 2024 5 1 12 0 0 0 in
  let t1 := DT.mk 2024 5 1 12 1 1 0 in
  let self := record_all (mkChecker ["a"] ∅ ∅ ∅ ∅ ∅) [("a", t); ("a", t1)] in
  avg_interval_seconds (average_of [t; t1]) = Ok (Float (F.of_Z 60)) /\
  exists doc,
    get_metrics mktime_utc (Some self) (DT.mk 2024 5 1 12 1 11 0) = Ok doc /\
    contains ("mqtt_topic_avg_interval_seconds{topic=" ++ Str.dq ++ "a"
              ++ Str.dq ++ ",display_name=" ++ Str.dq ++ "a" ++ Str.dq
              ++ ",type=" ++ Str.dq ++ "unknown" ++ Str.dq ++ "} 60.0") doc
    = true.
Proof.
  intros t t1 self.
  destruct (avg_interval_metric_read_back mktime_utc) as (_ & _ & H & _).
  destruct (H t t1) as (_ & _ & H3 & _); [vm_compute; reflexivity|].
  split; [exact H3|].
  eexists. split; vm_compute; reflexivity.
Defined.

(** ** Threads *)

Lemma on_message_upto_5 (self : checker) (topic : string) (t : datetime) :
  on_message_upto 5 topic t self = on_message self topic t.
Proof. reflexivity. Qed.

Lemma record_all_snoc (self : checker) (log : list (string * datetime))
    (topic : string) (t : datetime) :
  record_all self (log ++ [(topic, t)]) = on_message (record_all self log) topic t.
Proof. unfold record_all. rewrite fold_left_app. reflexivity. Qed.

Lemma omap_cons {A B} (f : A -> option B) (a : A) (l : list A) :
  omap f (a :: l) = match f a with
                    | Some b => b :: omap f l
                    | None => omap f l
                    end.
Proof. reflexivity. Qed.

Lemma omap_insert_same {A B} (f : A -> option B) (l : list A) (i : nat)
    (x y : A) :
  l !! i = Some x -> f x = None -> f y = None ->
  omap f (<[i := y]> l) = omap f l.
Proof.
  revert i. induction l as [|a l IH]; intros i Hi Hx Hy; [discriminate|].
  destruct i as [|i].
  - injection Hi as ->.
    change (omap f (y :: l) = omap f (x :: l)).
    rewrite !(omap_cons f). rewrite Hx, Hy. reflexivity.
  - change (omap f (a :: <[i := y]> l) = omap f (a :: l)).
    rewrite !(omap_cons f). rewrite (IH i Hi Hx Hy). reflexivity.
Qed.

Lemma omap_insert_new {A B} (f : A -> option B) (l : list A) (i : nat)
    (x y : A) (e : B) :
  l !! i = Some x -> f x = None -> f y = Some e ->
  omap f (<[i := y]> l) ≡ₚ (omap f l ++ [e])%list.
Proof.
  revert i. induction l as [|a l IH]; intros i Hi Hx Hy; [discriminate|].
  destruct i as [|i].
  - injection Hi as ->.
    change (omap f (y :: l) ≡ₚ (omap f (x :: l) ++ [e])%list).
    rewrite !(omap_cons f). rewrite Hx, Hy.
    apply Permutation_cons_append.
  - change (omap f (a :: <[i := y]> l) ≡ₚ (omap f (a :: l) ++ [e])%list).
    rewrite !(omap_cons f). specialize (IH i Hi Hx Hy).
    destruct (f a); [|exact IH].
    rewrite <- app_comm_cons. apply Permutation_cons; [reflexivity|exact IH].
Qed.

Lemma consistent_start (self0 : checker) (ths : list thread) :
  Forall (fun th => at_start th = true) ths ->
  consistent self0 (mkConfig self0 None ths) [].
Proof.
  intros Hs.
  assert (forall i th, ths !! i = Some th -> at_start th = true) as Hall.
  { intros i th Hi. rewrite Forall_lookup in Hs. apply (Hs i th Hi). }
  split; cbn [threads shared lock].
  - intros i th Hi. apply Hall in Hi.
    destruct th as [? ? []|? []]; cbn in *; split; congruence.
  - intros i topic t k Hi. apply Hall in Hi. discriminate.
  - reflexivity.
  - intros i now todo acc Hi. apply Hall in Hi. discriminate.
  - intros i now r Hi. apply Hall in Hi. discriminate.
  - assert (omap finished_event ths = []) as ->; [|reflexivity].
    clear Hs. induction ths as [|th ths IH]; [reflexivity|].
    rewrite omap_cons, (IH (fun i => Hall (S i))).
    specialize (Hall 0%nat th eq_refl).
    destruct th as [? ? []|? []]; cbn in *; congruence.
Qed.

Lemma lookup_insert_cases {A} (l : list A) (i j : nat) (x y z : A) :
  l !! i = Some x -> <[i := y]> l !! j = Some z ->
  (j = i /\ z = y) \/ (j <> i /\ l !! j = Some z).
Proof.
  intros Hi Hj. destruct (decide (i = j)) as [<-|Hne].
  - left. rewrite list_lookup_insert_eq in Hj by (eapply lookup_lt_Some; eauto).
    split; congruence.
  - right. rewrite list_lookup_insert_ne in Hj by exact Hne. split; congruence.
Qed.

Lemma lock_free_nobody_inside (self0 : checker) (c : config)
    (log : list (string * datetime)) :
  consistent self0 c log -> lock c = None ->
  shared c = record_all self0 log.
Proof.
  intros Hc Hl. apply (no_writer_inside _ _ _ Hc).
  intros i topic t k Hi.
  apply (holder_in_block _ _ _ Hc) in Hi as [Hi _].
  specialize (Hi eq_refl). congruence.
Qed.

Lemma holder_unique (self0 : checker) (c : config)
    (log : list (string * datetime)) (i j : nat) (th : thread) :
  consistent self0 c log -> lock c = Some i ->
  threads c !! j = Some th -> j <> i -> in_block th = false.
Proof.
  intros Hc Hl Hj Hne. destruct (in_block th) eqn:E; [|reflexivity].
  apply (holder_in_block _ _ _ Hc) in Hj as [Hj _].
  specialize (Hj E). congruence.
Qed.

Lemma reader_inside_sees_log (self0 : checker) (c : config)
    (log : list (string * datetime)) (i : nat) (now : datetime)
    (todo : list string) (acc : list status) :
  consistent self0 c log ->
  threads c !! i = Some (Reader now (RIn todo acc)) ->
  shared c = record_all self0 log /\
  forall j topic t k, threads c !! j <> Some (Writer topic t (WIn k)).
Proof.
  intros Hc Hi.
  assert (lock c = Some i) as Hl
    by (apply (holder_in_block _ _ _ Hc _ _ Hi); reflexivity).
  assert (forall j topic t k, threads c !! j <> Some (Writer topic t (WIn k)))
    as Hno.
  { intros j topic t k Hj. destruct (decide (j = i)) as [->|Hne];
      [congruence|].
    pose proof (holder_unique _ _ _ _ _ _ Hc Hl Hj Hne). discriminate. }
  split; [apply (no_writer_inside _ _ _ Hc), Hno | exact Hno].
Qed.

Lemma step_consistent (self0 : checker) (c c' : config)
    (log : list (string * datetime)) (i : nat) :
  consistent self0 c log -> step_at i c = Some c' ->
  exists log', consistent self0 c' log' /\ log `prefix_of` log'.
Proof.
  intros Hc Hstep. unfold step_at in Hstep.
  destruct (threads c !! i) as [th|] eqn:Hi; [|discriminate].
  pose proof (holder_in_block _ _ _ Hc _ _ Hi) as Hhold.
  destruct th as [tp t [|k|]|now [|[|tp todo] acc|r]]; cbn [step_thread] in Hstep.
  - (* a writer enters the block *)
    destruct (lock c) eqn:Hl; [discriminate|]. injection Hstep as <-.
    exists log. split; [|reflexivity].
    pose proof (lock_free_nobody_inside _ _ _ Hc Hl) as Hs.
    split; cbn [threads shared lock].
    + intros j th' Hj.
      destruct (lookup_insert_cases _ _ _ _ _ _ Hi Hj) as [[-> ->]|[Hne Hj']].
      * split; reflexivity.
      * pose proof (holder_in_block _ _ _ Hc _ _ Hj') as Hj2.
        rewrite Hl in Hj2. split; [intros E; apply Hj2 in E; discriminate|].
        intros [= ->]. contradiction.
    + intros j topic t' k Hj.
      destruct (lookup_insert_cases _ _ _ _ _ _ Hi Hj) as [[-> E]|[Hne Hj']].
      * injection E as -> -> ->. split; [lia|exact Hs].
      * apply (holder_in_block _ _ _ Hc) in Hj' as [Hj' _].
        specialize (Hj' eq_refl). congruence.
    + intros Hno. exfalso. apply (Hno i tp t 0%nat).
      apply list_lookup_insert_eq. eapply lookup_lt_Some; eauto.
    + intros j now todo acc Hj.
      destruct (lookup_insert_cases _ _ _ _ _ _ Hi Hj) as [[-> E]|[Hne Hj']];
        [discriminate|].
      apply (reader_progress _ _ _ Hc _ _ _ _ Hj').
    + intros j now r Hj.
      destruct (lookup_insert_cases _ _ _ _ _ _ Hi Hj) as [[-> E]|[Hne Hj']];
        [discriminate|].
      apply (reader_result _ _ _ Hc _ _ _ Hj').
    + rewrite (omap_insert_same finished_event _ _ _ _ Hi) by reflexivity.
      apply (log_finished _ _ _ Hc).
  - (* a writer inside the block *)
    assert (lock c = Some i) as Hl by (apply Hhold; reflexivity).
    destruct (writer_progress _ _ _ Hc _ _ _ _ Hi) as [Hk Hs].
    destruct (Nat.ltb_spec k 5) as [Hlt|Hge]; injection Hstep as <-.
    + (* one more statement *)
      exists log. split; [|reflexivity].
      split; cbn [threads shared lock].
      * intros j th' Hj.
        destruct (lookup_insert_cases _ _ _ _ _ _ Hi Hj)
          as [[-> ->]|[Hne Hj']].
        -- rewrite Hl. split; reflexivity.
        -- apply (holder_in_block _ _ _ Hc _ _ Hj').
      * intros j topic t' k' Hj.
        destruct (lookup_insert_cases _ _ _ _ _ _ Hi Hj)
          as [[-> E]|[Hne Hj']].
        -- injection E as -> -> ->. split; [lia|]. rewrite Hs. reflexivity.
        -- pose proof (holder_unique _ _ _ _ _ _ Hc Hl Hj' Hne). discriminate.
      * intros Hno. exfalso. apply (Hno i tp t (S k)).
        apply list_lookup_insert_eq. eapply lookup_lt_Some; eauto.
      * intros j now todo acc Hj.
        destruct (lookup_insert_cases _ _ _ _ _ _ Hi Hj)
          as [[-> E]|[Hne Hj']]; [discriminate|].
        pose proof (holder_unique _ _ _ _ _ _ Hc Hl Hj' Hne). discriminate.
      * intros j now r Hj.
        destruct (lookup_insert_cases _ _ _ _ _ _ Hi Hj)
          as [[-> E]|[Hne Hj']]; [discriminate|].
        apply (reader_result _ _ _ Hc _ _ _ Hj').
      * rewrite (omap_insert_same finished_event _ _ _ _ Hi) by reflexivity.
        apply (log_finished _ _ _ Hc).
    + (* the writer leaves the block *)
      assert (k = 5%nat) as -> by lia.
      exists (log ++ [(tp, t)])%list. split; [|apply prefix_app_r; reflexivity].
      split; cbn [threads shared lock].
      * intros j th' Hj.
        destruct (lookup_insert_cases _ _ _ _ _ _ Hi Hj)
          as [[-> ->]|[Hne Hj']].
        -- split; discriminate.
        -- rewrite (holder_unique _ _ _ _ _ _ Hc Hl Hj' Hne).
           split; discriminate.
      * intros j topic t' k' Hj.
        destruct (lookup_insert_cases _ _ _ _ _ _ Hi Hj)
          as [[-> E]|[Hne Hj']]; [discriminate|].
        pose proof (holder_unique _ _ _ _ _ _ Hc Hl Hj' Hne). discriminate.
      * intros _. rewrite Hs, on_message_upto_5, record_all_snoc. reflexivity.
      * intros j now todo acc Hj.
        destruct (lookup_insert_cases _ _ _ _ _ _ Hi Hj)
          as [[-> E]|[Hne Hj']]; [discriminate|].
        pose proof (holder_unique _ _ _ _ _ _ Hc Hl Hj' Hne). discriminate.
      * intros j now r Hj.
        destruct (lookup_insert_cases _ _ _ _ _ _ Hi Hj)
          as [[-> E]|[Hne Hj']]; [discriminate|].
        destruct (reader_result _ _ _ Hc _ _ _ Hj') as (seen & Hp & Hr).
        exists seen. split; [apply prefix_app_r, Hp|exact Hr].
      * rewrite (omap_insert_new finished_event _ _ _ _ (tp, t) Hi)
          by reflexivity.
        rewrite (log_finished _ _ _ Hc). reflexivity.
  - discriminate.
  - (* a reader enters the block *)
    destruct (lock c) eqn:Hl; [discriminate|]. injection Hstep as <-.
    exists log. split; [|reflexivity].
    pose proof (lock_free_nobody_inside _ _ _ Hc Hl) as Hs.
    split; cbn [threads shared lock].
    + intros j th' Hj.
      destruct (lookup_insert_cases _ _ _ _ _ _ Hi Hj) as [[-> ->]|[Hne Hj']].
      * split; reflexivity.
      * pose proof (holder_in_block _ _ _ Hc _ _ Hj') as Hj2.
        rewrite Hl in Hj2. split; [intros E; apply Hj2 in E; discriminate|].
        intros [= ->]. contradiction.
    + intros j topic t' k Hj.
      destruct (lookup_insert_cases _ _ _ _ _ _ Hi Hj) as [[-> E]|[Hne Hj']];
        [discriminate|].
      apply (holder_in_block _ _ _ Hc) in Hj' as [Hj' _].
      specialize (Hj' eq_refl). congruence.
    + intros _. exact Hs.
    + intros j now' todo acc Hj.
      destruct (lookup_insert_cases _ _ _ _ _ _ Hi Hj) as [[-> E]|[Hne Hj']].
      * injection E as -> -> ->. reflexivity.
      * apply (reader_progress _ _ _ Hc _ _ _ _ Hj').
    + intros j now' r Hj.
      destruct (lookup_insert_cases _ _ _ _ _ _ Hi Hj) as [[-> E]|[Hne Hj']];
        [discriminate|].
      apply (reader_result _ _ _ Hc _ _ _ Hj').
    + rewrite (omap_insert_same finished_event _ _ _ _ Hi) by reflexivity.
      apply (log_finished _ _ _ Hc).
  - (* a reader leaves the block *)
    assert (lock c = Some i) as Hl by (apply Hhold; reflexivity).
    destruct (reader_inside_sees_log _ _ _ _ _ _ _ Hc Hi) as [Hs Hno].
    injection Hstep as <-.
    exists log. split; [|reflexivity].
    split; cbn [threads shared lock].
    + intros j th' Hj.
      destruct (lookup_insert_cases _ _ _ _ _ _ Hi Hj) as [[-> ->]|[Hne Hj']].
      * split; discriminate.
      * rewrite (holder_unique _ _ _ _ _ _ Hc Hl Hj' Hne). split; discriminate.
    + intros j topic t' k Hj.
      destruct (lookup_insert_cases _ _ _ _ _ _ Hi Hj) as [[-> E]|[Hne Hj']];
        [discriminate|].
      exfalso. apply (Hno _ _ _ _ Hj').
    + intros _. exact Hs.
    + intros j now' todo acc' Hj.
      destruct (lookup_insert_cases _ _ _ _ _ _ Hi Hj) as [[-> E]|[Hne Hj']];
        [discriminate|].
      pose proof (holder_unique _ _ _ _ _ _ Hc Hl Hj' Hne). discriminate.
    + intros j now' r Hj.
      destruct (lookup_insert_cases _ _ _ _ _ _ Hi Hj) as [[-> E]|[Hne Hj']].
      * injection E as -> ->. exists log. split; [reflexivity|].
        rewrite <- Hs, <- (reader_progress _ _ _ Hc _ _ _ _ Hi).
        cbn [map]. rewrite app_nil_r. reflexivity.
      * apply (reader_result _ _ _ Hc _ _ _ Hj').
    + rewrite (omap_insert_same finished_event _ _ _ _ Hi) by reflexivity.
      apply (log_finished _ _ _ Hc).
  - (* a reader visits one topic *)
    assert (lock c = Some i) as Hl by (apply Hhold; reflexivity).
    destruct (reader_inside_sees_log _ _ _ _ _ _ _ Hc Hi) as [Hs Hno].
    injection Hstep as <-.
    exists log. split; [|reflexivity].
    split; cbn [threads shared lock].
    + intros j th' Hj.
      destruct (lookup_insert_cases _ _ _ _ _ _ Hi Hj) as [[-> ->]|[Hne Hj']].
      * rewrite Hl. split; reflexivity.
      * apply (holder_in_block _ _ _ Hc _ _ Hj').
    + intros j topic t' k Hj.
      destruct (lookup_insert_cases _ _ _ _ _ _ Hi Hj) as [[-> E]|[Hne Hj']];
        [discriminate|].
      exfalso. apply (Hno _ _ _ _ Hj').
    + intros _. exact Hs.
    + intros j now' todo' acc' Hj.
      destruct (lookup_insert_cases _ _ _ _ _ _ Hi Hj) as [[-> E]|[Hne Hj']].
      * injection E as -> -> ->.
        rewrite <- (reader_progress _ _ _ Hc _ _ _ _ Hi).
        rewrite <- app_assoc. reflexivity.
      * apply (reader_progress _ _ _ Hc _ _ _ _ Hj').
    + intros j now' r Hj.
      destruct (lookup_insert_cases _ _ _ _ _ _ Hi Hj) as [[-> E]|[Hne Hj']];
        [discriminate|].
      apply (reader_result _ _ _ Hc _ _ _ Hj').
    + rewrite (omap_insert_same finished_event _ _ _ _ Hi) by reflexivity.
      apply (log_finished _ _ _ Hc).
  - discriminate.
Qed.

Lemma run_consistent (self0 : checker) (schedule : list nat) (c c' : config)
    (log : list (string * datetime)) :
  consistent self0 c log -> run_schedule schedule c = Some c' ->
  exists log', consistent self0 c' log' /\ log `prefix_of` log'.
Proof.
  revert c log. induction schedule as [|i rest IH]; intros c log Hc Hrun.
  - injection Hrun as <-. exists log. split; [exact Hc|reflexivity].
  - cbn [run_schedule] in Hrun.
    destruct (step_at i c) as [c1|] eqn:Hstep; [|discriminate].
    destruct (step_consistent _ _ _ _ _ Hc Hstep) as (log1 & Hc1 & Hp1).
    destruct (IH _ _ Hc1 Hrun) as (log' & Hc' & Hp').
    exists log'. split; [exact Hc'|]. etrans; eassumption.
Qed.

(** C8.  Threads that run [on_message] and [get_status_data] on one
    checker, each from its start, in any order of steps the lock allows.
    At every point there is a list [log] of whole messages, those of the
    threads past their block, such that: with the lock free the shared
    state is the one after the [on_message] calls of [log]; a reader inside
    its block sees that state, and no writer is inside its block then; the
    list a reader returns is [get_status_data] of the state after the calls
    of a prefix of [log]; and a writer inside its block is alone there. *)
Theorem record_atomic_for_snapshots
    (self0 : checker) (ths : list thread) (schedule : list nat) (c : config) :
  Forall (fun th => at_start th = true) ths ->
  run_schedule schedule (mkConfig self0 None ths) = Some c ->
  exists log : list (string * datetime),
    log ≡ₚ omap finished_event (threads c) /\
    (lock c = None -> shared c = record_all self0 log) /\
    (forall i now todo acc,
       threads c !! i = Some (Reader now (RIn todo acc)) ->
       shared c = record_all self0 log /\
       (forall j topic t k,
          threads c !! j <> Some (Writer topic t (WIn k))) /\
       (acc ++ map (topic_status (record_all self0 log) now) todo)%list
       = get_status_data (record_all self0 log) now) /\
    (forall i now r,
       threads c !! i = Some (Reader now (RAfter r)) ->
       exists seen : list (string * datetime),
         seen `prefix_of` log /\
         r = get_status_data (record_all self0 seen) now) /\
    (forall i topic t k,
       threads c !! i = Some (Writer topic t (WIn k)) ->
       shared c = on_message_upto k topic t (record_all self0 log) /\
       forall j th, j <> i -> threads c !! j = Some th -> in_block th = false).
Proof.
  intros Hs Hrun.
  destruct (run_consistent self0 schedule _ c [] (consistent_start self0 ths Hs)
              Hrun) as (log & Hc & _).
  exists log. split; [apply (log_finished _ _ _ Hc)|].
  split; [apply (lock_free_nobody_inside _ _ _ Hc)|].
  split; [|split].
  - intros i now todo acc Hi.
    destruct (reader_inside_sees_log _ _ _ _ _ _ _ Hc Hi) as [Hsh Hno].
    split; [exact Hsh|]. split; [exact Hno|].
    rewrite <- Hsh. apply (reader_progress _ _ _ Hc _ _ _ _ Hi).
  - apply (reader_result _ _ _ Hc).
  - intros i topic t k Hi.
    split; [apply (writer_progress _ _ _ Hc _ _ _ _ Hi)|].
    intros j th Hne Hj.
    assert (lock c = Some i) as Hl
      by (apply (holder_in_block _ _ _ Hc _ _ Hi); reflexivity).
    apply (holder_unique _ _ _ _ _ _ Hc Hl Hj Hne).
Qed.

(** A message recorded, a status read, and a second message left half
    recorded: the reader has seen the first message whole and nothing of
    the second. *)
Lemma record_atomic_for_snapshots_witness :
  let t1 := DT.mk 2024 5 1 12 0 0 0 in
  let t2 := DT.mk 2024 5 1 12 0 30 0 in
  let now := DT.mk 2024 5 1 12 0 40 0 in
  let self0 := mkChecker ["a"] ∅ ∅ ∅ ∅ ∅ in
  let ths := [Writer "a" t1 WBefore; Reader now RBefore;
              Writer "a" t2 WBefore] in
  let schedule := [0; 0; 0; 0; 0; 0; 0; 1; 1; 1; 2; 2; 2]%nat in
  exists c r,
    run_schedule schedule (mkConfig self0 None ths) = Some c /\
    threads c !! 1%nat = Some (Reader now (RAfter r)) /\
    threads c !! 2%nat = Some (Writer "a" t2 (WIn 2)) /\
    map st_message_count r = [1] /\
    exists seen : list (string * datetime),
      r = get_status_data (record_all self0 seen) now.
Proof.
  intros t1 t2 now self0 ths schedule.
  destruct (run_schedule schedule (mkConfig self0 None ths)) as [c|] eqn:Hrun;
    [|vm_compute in Hrun; discriminate].
  assert (Forall (fun th => at_start th = true) ths) as Hs
    by (repeat constructor).
  destruct (record_atomic_for_snapshots self0 ths schedule c Hs Hrun)
    as (log & _ & _ & _ & Hr & _).
  assert (exists r, threads c !! 1%nat = Some (Reader now (RAfter r)) /\
                    threads c !! 2%nat = Some (Writer "a" t2 (WIn 2)) /\
                    map st_message_count r = [1]) as (r & H1 & H2 & H3).
  { vm_compute in Hrun. injection Hrun as <-.
    eexists. split; [reflexivity|]. split; reflexivity. }
  exists c, r. split; [reflexivity|]. split; [exact H1|].
  split; [exact H2|]. split; [exact H3|].
  destruct (Hr 1%nat now r H1) as (seen & _ & Hseen).
  exists seen. exact Hseen.
Defined.

(** * Further properties *)

(** ** Arrivals and the rows of the status list *)

Lemma topics_after_record_all (events : list (string * datetime))
    (self : checker) :
  topics (record_all self events) = topics self /\
  topic_descriptions (record_all self events) = topic_descriptions self /\
  topic_types (record_all self events) = topic_types self.
Proof.
  revert self. induction events as [|e events IH]; intros self;
    [repeat split|].
  rewrite record_all_cons.
  destruct (IH (on_message self (fst e) (snd e))) as (H1 & H2 & H3).
  rewrite H1, H2, H3. repeat split.
Qed.

Lemma topic_status_frame (self : checker) (tp tp' : string)
    (t now : datetime) :
  tp <> tp' ->
  topic_status (on_message self tp t) now tp' = topic_status self now tp'.
Proof.
  intros Hne. unfold topic_status, _calculate_average_interval.
  rewrite history_after_on_message, counters_after_on_message,
    timestamps_after_on_message.
  rewrite !dict_get_insert.
  rewrite !lookup_insert_ne by exact Hne.
  destruct (String.eqb_spec tp tp') as [E|_]; [contradiction|].
  reflexivity.
Qed.

Lemma status_row_frame_aux (self : checker)
    (events : list (string * datetime)) (topic : string) (now : datetime) :
  Forall (fun e => fst e <> topic) events ->
  topic_status (record_all self events) now topic
  = topic_status self now topic.
Proof.
  revert self. induction events as [|e events IH]; intros self Hall;
    [reflexivity|].
  apply Forall_cons in Hall as [He Hall].
  rewrite record_all_cons, (IH _ Hall). apply topic_status_frame, He.
Qed.

(** X1.  Arrivals are matched to registry entries by equality of the topic
    string: messages on other topics leave the row of a topic as it was. *)
Theorem status_row_ignores_other_topics
    (self : checker) (events : list (string * datetime)) (topic : string)
    (now : datetime) :
  Forall (fun e => fst e <> topic) events ->
  topic_status (record_all self events) now topic
  = topic_status self now topic.
Proof. apply status_row_frame_aux. Qed.

(** Messages below a wildcard entry do not count for the entry. *)
Lemma status_row_ignores_other_topics_witness :
  let now := DT.mk 2024 5 1 12 0 0 0 in
  let self := mkChecker ["sensors/#"] ∅ ∅ ∅ ∅ ∅ in
  st_status
    (topic_status (record_all self [("sensors/a", now); ("sensors/b", now)])
       now "sensors/#") = "never_seen".
Proof.
  intros now self.
  rewrite (status_row_ignores_other_topics self
             [("sensors/a", now); ("sensors/b", now)] "sensors/#" now).
  - reflexivity.
  - repeat constructor; discriminate.
Defined.

(** X2.  The status list has one row for each entry of the registry, in
    the order of the registry and with its repetitions, whatever messages
    have arrived; a message on a topic outside the registry adds no row. *)
Theorem status_rows_follow_registry
    (self : checker) (events : list (string * datetime)) (now : datetime) :
  map st_topic (get_status_data (record_all self events) now) = topics self /\
  length (get_status_data (record_all self events) now)
  = length (topics self).
Proof.
  unfold get_status_data.
  destruct (topics_after_record_all events self) as (-> & _ & _).
  rewrite length_map. split; [|reflexivity].
  rewrite map_map. induction (topics self) as [|tp tps IH]; [reflexivity|].
  cbn [map]. rewrite IH. f_equal.
  unfold topic_status.
  destruct (topic_timestamps (record_all self events) !! tp); reflexivity.
Qed.

(** ** What the dictionaries hold after a run of arrivals *)

Lemma lookup_untouched_record_all {A} (f : checker -> gmap string A)
    (g : checker -> string -> datetime -> A)
    (Hf : forall s tp t, f (on_message s tp t) = <[tp := g s tp t]> (f s))
    (events : list (string * datetime)) (self : checker) (topic : string) :
  arrivals topic events = [] ->
  f (record_all self events) !! topic = f self !! topic.
Proof.
  revert self. induction events as [|[tp t] events IH]; intros self Hno;
    [reflexivity|].
  rewrite record_all_cons. cbn [arrivals fst snd] in *.
  destruct (String.eqb_spec tp topic) as [->|Hne]; [discriminate|].
  rewrite (IH _ Hno), Hf. apply lookup_insert_ne, Hne.
Qed.

Lemma timestamps_after_record_all (events : list (string * datetime))
    (self : checker) (topic : string) :
  topic_timestamps (record_all self events) !! topic
  = match last (arrivals topic events) with
    | Some t => Some t
    | None => topic_timestamps self !! topic
    end.
Proof.
  revert self. induction events as [|[tp t] events IH]; intros self;
    [reflexivity|].
  rewrite record_all_cons, IH. cbn [arrivals fst snd].
  rewrite timestamps_after_on_message.
  destruct (String.eqb_spec tp topic) as [->|Hne].
  - rewrite last_cons, lookup_insert_eq.
    destruct (last (arrivals topic events)); reflexivity.
  - rewrite lookup_insert_ne by exact Hne. reflexivity.
Qed.

Lemma last_keep_last {A} (n : nat) (l : list A) :
  (0 < n)%nat -> last (keep_last n l) = last l.
Proof.
  intros Hn. unfold keep_last.
  rewrite <- (firstn_skipn (length l - n) l) at 3. rewrite last_app.
  destruct (last (skipn (length l - n) l)) eqn:E; [reflexivity|].
  apply last_None in E.
  assert (length (skipn (length l - n) l) = 0%nat) as L by (rewrite E; reflexivity).
  rewrite length_skipn in L.
  assert (length l = 0%nat) as L0 by lia.
  destruct l; [reflexivity|discriminate].
Qed.

Lemma last_none_nil {A} (l : list A) : last l = None <-> l = [].
Proof. apply last_None. Qed.

Section FromNothing.

Variables (tps : list string) (descs tys : gmap string string).
Variable events : list (string * datetime).
Variable topic : string.

Let self := record_all (mkChecker tps descs tys ∅ ∅ ∅) events.
Let ts := arrivals topic events.

Lemma timestamps_from_nothing : topic_timestamps self !! topic = last ts.
Proof.
  subst self ts. rewrite timestamps_after_record_all.
  cbn [topic_timestamps]. rewrite lookup_empty.
  destruct (last (arrivals topic events)); reflexivity.
Qed.

Lemma counter_from_nothing :
  dict_get (topic_counters self) topic 0 = Z.of_nat (length ts).
Proof.
  subst self ts. rewrite counter_after_record_all.
  unfold dict_get at 1. cbn [topic_counters]. rewrite lookup_empty. lia.
Qed.

Lemma counter_lookup_from_nothing :
  topic_counters self !! topic
  = if decide (ts = []) then None else Some (Z.of_nat (length ts)).
Proof.
  destruct (decide (ts = [])) as [E|Hne].
  - subst self ts.
    rewrite (lookup_untouched_record_all topic_counters
               (fun s tp _ => dict_get (topic_counters s) tp 0 + 1)
               counters_after_on_message _ _ _ E).
    apply lookup_empty.
  - rewrite (dict_get_lookup _ _ 0), counter_from_nothing; [reflexivity|].
    apply (lookup_after_record_all topic_counters
             (fun s tp _ => dict_get (topic_counters s) tp 0 + 1)
             counters_after_on_message). exact Hne.
Qed.

Lemma history_from_nothing :
  topic_message_history self !! topic
  = if decide (ts = []) then None else Some (keep_last 100 ts).
Proof.
  destruct (decide (ts = [])) as [E|Hne].
  - subst self ts.
    rewrite (lookup_untouched_record_all topic_message_history
               (fun s tp t =>
                  keep_last 100
                    (dict_get (topic_message_history s) tp [] ++ [t]))
               history_after_on_message _ _ _ E).
    apply lookup_empty.
  - rewrite (dict_get_lookup _ _ []).
    + subst self ts. rewrite history_after_record_all.
      * unfold dict_get. cbn [topic_message_history].
        rewrite lookup_empty. reflexivity.
      * unfold dict_get. cbn [topic_message_history].
        rewrite lookup_empty. cbn. lia.
    + apply (lookup_after_record_all topic_message_history
               (fun s tp t =>
                  keep_last 100
                    (dict_get (topic_message_history s) tp [] ++ [t]))
               history_after_on_message). exact Hne.
Qed.

End FromNothing.

(** X3.  From a checker that has recorded nothing, after any sequence of
    arrivals: the last-arrival time of a topic is the time of its latest
    arrival and is the last entry of its history; and the three
    dictionaries hold the topic exactly when a message has arrived on
    it. *)
Theorem last_arrival_is_last_of_history
    (tps : list string) (descs tys : gmap string string)
    (events : list (string * datetime)) (topic : string) :
  let self := record_all (mkChecker tps descs tys ∅ ∅ ∅) events in
  topic_timestamps self !! topic = last (arrivals topic events) /\
  topic_message_history self !! topic ≫= last
  = topic_timestamps self !! topic /\
  (topic_timestamps self !! topic = None <-> arrivals topic events = []) /\
  (topic_counters self !! topic = None <-> arrivals topic events = []) /\
  (topic_message_history self !! topic = None <-> arrivals topic events = []).
Proof.
  intros self. subst self.
  rewrite timestamps_from_nothing, counter_lookup_from_nothing,
    history_from_nothing.
  split; [reflexivity|].
  destruct (decide (arrivals topic events = [])) as [E|Hne].
  - rewrite E. repeat split; reflexivity.
  - split; [cbn; apply last_keep_last; lia|].
    rewrite last_none_nil. repeat split; try tauto; discriminate.
Qed.

(** X4.  From a checker that has recorded nothing, after any sequence of
    arrivals: a row has status [never_seen] exactly when its message count
    is 0, which is exactly when no message has arrived on its topic; the
    count is the number of arrivals on the topic. *)
Theorem never_seen_iff_count_zero
    (tps : list string) (descs tys : gmap string string)
    (events : list (string * datetime)) (topic : string) (now : datetime) :
  let row :=
    topic_status (record_all (mkChecker tps descs tys ∅ ∅ ∅) events)
      now topic in
  st_message_count row = Z.of_nat (length (arrivals topic events)) /\
  (st_status row = "never_seen" <-> st_message_count row = 0) /\
  (st_status row = "never_seen" <-> arrivals topic events = []) /\
  (st_status row = "never_seen" -> st_last_seen row = "Never" /\
     st_time_since row = "Never" /\ st_avg_interval row = "No data").
Proof.
  intros row.
  assert (st_message_count row = Z.of_nat (length (arrivals topic events)))
    as Hc.
  { subst row. unfold topic_status.
    destruct (topic_timestamps _ !! topic); cbn [st_message_count];
      apply counter_from_nothing. }
  assert (st_status row = "never_seen" <-> arrivals topic events = []) as Hs.
  { subst row.
    destruct (topic_timestamps
                (record_all (mkChecker tps descs tys ∅ ∅ ∅) events) !! topic)
      as [t|] eqn:E.
    - rewrite (status_seen _ _ _ _ E).
      rewrite timestamps_from_nothing in E.
      split.
      + destruct (_ <? _); discriminate.
      + intros H. rewrite H in E. discriminate.
    - rewrite (status_never_seen _ _ _ E).
      rewrite timestamps_from_nothing in E. apply last_none_nil in E.
      tauto. }
  split; [exact Hc|]. split; [|split; [exact Hs|]].
  - rewrite Hs, Hc. destruct (arrivals topic events); cbn [length];
      split; intros H; try reflexivity; try discriminate; lia.
  - intros H. apply Hs in H. subst row. unfold topic_status.
    rewrite timestamps_from_nothing, H. cbn.
    unfold _calculate_average_interval.
    rewrite history_from_nothing.
    destruct (decide (arrivals topic events = [])); [|contradiction].
    repeat split.
Qed.

(** X5.  The average interval of a topic is computed from its latest 100
    arrivals only: from a checker that has recorded nothing, it is the
    average over the last 100 arrival times, however many have come. *)
Theorem average_over_latest_100
    (tps : list string) (descs tys : gmap string string)
    (events : list (string * datetime)) (topic : string) :
  _calculate_average_interval
    (record_all (mkChecker tps descs tys ∅ ∅ ∅) events) topic
  = average_of (keep_last 100 (arrivals topic events)) /\
  (length (keep_last 100 (arrivals topic events)) <= 100)%nat /\
  exists older,
    arrivals topic events
    = (older ++ keep_last 100 (arrivals topic events))%list.
Proof.
  split; [|split].
  - unfold _calculate_average_interval. rewrite history_from_nothing.
    destruct (decide (arrivals topic events = [])) as [->|]; reflexivity.
  - rewrite keep_last_length. lia.
  - exists (firstn (length (arrivals topic events) - 100)
              (arrivals topic events)).
    unfold keep_last. rewrite firstn_skipn. reflexivity.
Qed.

(** ** Health and elapsed time *)

(** X6.  A message read less than an hour after its arrival makes its
    topic healthy, whatever was recorded before; the row then counts one
    message more and shows the arrival as last seen. *)
Theorem arrival_restores_health
    (self : checker) (topic : string) (t now : datetime) :
  to_us now - to_us t < 3600 * 1000000 ->
  let row := topic_status (on_message self topic t) now topic in
  st_status row = "healthy" /\
  st_message_count row = dict_get (topic_counters self) topic 0 + 1 /\
  st_last_seen row = DT.strftime t.
Proof.
  intros H row.
  assert (topic_timestamps (on_message self topic t) !! topic = Some t) as E
    by (rewrite timestamps_after_on_message; apply lookup_insert_eq).
  subst row. rewrite (status_seen _ _ _ _ E), (last_seen_seen _ _ _ _ E).
  rewrite sub_to_us. apply Z.ltb_lt in H. rewrite H.
  split; [reflexivity|]. split; [|reflexivity].
  unfold topic_status. rewrite E. cbn [st_message_count].
  rewrite counters_after_on_message, dict_get_insert, String.eqb_refl.
  reflexivity.
Qed.

(** A topic silent for a day, then a message read a minute later. *)
Lemma arrival_restores_health_witness :
  let old := DT.mk 2024 4 30 12 0 0 0 in
  let t := DT.mk 2024 5 1 12 0 0 0 in
  let now := DT.mk 2024 5 1 12 1 0 0 in
  let self := on_message (mkChecker ["a"] ∅ ∅ ∅ ∅ ∅) "a" old in
  st_status (topic_status self t "a") = "unhealthy" /\
  st_status (topic_status (on_message self "a" t) now "a") = "healthy".
Proof.
  intros old t now self. split; [reflexivity|].
  apply (arrival_restores_health self "a" t now). vm_compute. reflexivity.
Defined.

(** X7.  Without a new arrival on its topic a row never recovers: once
    unhealthy it is unhealthy at every later reading, and messages on other
    topics do not change that. *)
Theorem unhealthy_until_next_arrival
    (self : checker) (topic : string) (now now' : datetime)
    (events : list (string * datetime)) :
  to_us now <= to_us now' ->
  Forall (fun e => fst e <> topic) events ->
  st_status (topic_status self now topic) = "unhealthy" ->
  st_status (topic_status (record_all self events) now' topic) = "unhealthy".
Proof.
  intros Hle Hev Hu.
  rewrite (status_row_frame_aux self events topic now' Hev).
  destruct (topic_timestamps self !! topic) as [last|] eqn:E.
  - rewrite (status_seen _ _ _ _ E), sub_to_us in Hu.
    rewrite (status_seen _ _ _ _ E), sub_to_us.
    destruct (Z.ltb_spec (to_us now - to_us last) (3600 * 1000000));
      [discriminate Hu|].
    destruct (Z.ltb_spec (to_us now' - to_us last) (3600 * 1000000));
      [lia|reflexivity].
  - rewrite (status_never_seen _ _ _ E) in Hu. discriminate.
Qed.

Lemma unhealthy_until_next_arrival_witness :
  let t := DT.mk 2024 5 1 12 0 0 0 in
  let now := DT.mk 2024 5 1 13 0 0 0 in
  let now' := DT.mk 2024 5 2 9 0 0 0 in
  let self := on_message (mkChecker ["a"; "b"] ∅ ∅ ∅ ∅ ∅) "a" t in
  st_status (topic_status (record_all self [("b", now)]) now' "a")
  = "unhealthy".
Proof.
  intros t now now' self.
  apply (unhealthy_until_next_arrival self "a" now now' [("b", now)]).
  - vm_compute. intros H. discriminate H.
  - repeat constructor. discriminate.
  - reflexivity.
Defined.

(** ** The elapsed time as text *)

Lemma str_app_empty (a : string) : a ++ "" = a.
Proof.
  induction a as [|x a IH]; [reflexivity|].
  rewrite str_app_cons, IH. reflexivity.
Qed.

Lemma has_char_app (c : ascii) (a b : string) :
  has_char c (a ++ b) = has_char c a || has_char c b.
Proof.
  induction a as [|x a IH]; [reflexivity|].
  rewrite str_app_cons. cbn [has_char]. rewrite IH, orb_assoc. reflexivity.
Qed.

Lemma all_digits_no_char (c : ascii) (s : string) :
  Str.is_digit c = false -> all_digits s = true -> has_char c s = false.
Proof.
  intros Hc. induction s as [|x s IH]; intros Hd; [reflexivity|].
  cbn [all_digits] in Hd. apply andb_true_iff in Hd as [Hx Hs].
  cbn [has_char]. rewrite (IH Hs), orb_false_r.
  destruct (Ascii.eqb_spec x c) as [->|]; [congruence|reflexivity].
Qed.

Lemma zeros_no_char (c : ascii) (k : nat) :
  c <> "0"%char -> has_char c (Str.zeros k) = false.
Proof.
  intros Hc. induction k as [|k IH]; [reflexivity|].
  cbn [Str.zeros has_char]. rewrite IH, orb_false_r.
  destruct (Ascii.eqb_spec "0" c) as [<-|]; [contradiction|reflexivity].
Qed.

Lemma zpad_no_char (c : ascii) (w : nat) (n : Z) :
  Str.is_digit c = false -> has_char c (Str.zpad w n) = false.
Proof.
  intros Hc. unfold Str.zpad. rewrite has_char_app.
  rewrite zeros_no_char by (intros ->; discriminate).
  apply (all_digits_no_char c _ Hc), all_digits_of_N.
Qed.

Lemma of_Z_no_char (c : ascii) (n : Z) :
  Str.is_digit c = false -> c <> "-"%char -> has_char c (Str.of_Z n) = false.
Proof.
  intros Hc Hm. unfold Str.of_Z.
  destruct (n <? 0).
  - rewrite has_char_app, (all_digits_no_char c _ Hc (all_digits_of_N _)).
    change (has_char c "-") with (Ascii.eqb "-" c || false).
    destruct (Ascii.eqb_spec "-" c) as [<-|]; [contradiction|reflexivity].
  - apply (all_digits_no_char c _ Hc), all_digits_of_N.
Qed.

Lemma before_absent (c : ascii) (a : string) :
  has_char c a = false -> Str.before c a = a.
Proof.
  induction a as [|x a IH]; intros H; [reflexivity|].
  cbn [has_char] in H. apply orb_false_iff in H as [Hx Ha].
  cbn [Str.before]. rewrite Hx, (IH Ha). reflexivity.
Qed.

Lemma before_first (c : ascii) (a b : string) :
  has_char c a = false -> Str.before c (a ++ String c b) = a.
Proof.
  induction a as [|x a IH]; intros H.
  - rewrite str_app_nil. cbn [Str.before]. rewrite Ascii.eqb_refl.
    reflexivity.
  - cbn [has_char] in H. apply orb_false_iff in H as [Hx Ha].
    rewrite str_app_cons. cbn [Str.before]. rewrite Hx, (IH Ha). reflexivity.
Qed.

Lemma whole_seconds_fields (d : timedelta) :
  DT.days (d - DT.microseconds d) = DT.days d /\
  DT.seconds (d - DT.microseconds d) = DT.seconds d /\
  DT.microseconds (d - DT.microseconds d) = 0.
Proof.
  unfold DT.days, DT.seconds, DT.microseconds, DT.us_per_day, DT.us_per_second.
  set (P := 86400 * 1000000).
  pose proof (Z.div_mod d P ltac:(subst P; lia)) as Hd.
  pose proof (Z.mod_pos_bound d P ltac:(subst P; lia)) as Hr.
  pose proof (Z.div_mod (d mod P) 1000000 ltac:(lia)) as Hs.
  pose proof (Z.mod_pos_bound (d mod P) 1000000 ltac:(lia)) as Hu.
  set (D := d / P) in *. set (r := d mod P) in *.
  set (S := r / 1000000) in *. set (u := r mod 1000000) in *.
  assert (0 <= 1000000 * S < P) as HS by (subst P; lia).
  assert ((d - u) / P = D) as E1
    by (symmetry; apply (Z.div_unique (d - u) P D (1000000 * S)); lia).
  assert ((d - u) mod P = 1000000 * S) as E2
    by (symmetry; apply (Z.mod_unique (d - u) P D (1000000 * S)); lia).
  rewrite E1, E2. split; [reflexivity|]. split.
  - symmetry. apply (Z.div_unique (1000000 * S) 1000000 S 0); lia.
  - symmetry. apply (Z.mod_unique (1000000 * S) 1000000 S 0); lia.
Qed.

Lemma to_string_split (d : timedelta) :
  DT.to_string d =
  DT.to_string (d - DT.microseconds d) ++
  (if negb (DT.microseconds d =? 0)
   then "." ++ Str.zpad 6 (DT.microseconds d) else "").
Proof.
  destruct (whole_seconds_fields d) as (E1 & E2 & E3).
  unfold DT.to_string. rewrite E1, E2, E3. cbn [Z.eqb negb].
  destruct (negb (DT.microseconds d =? 0)); [reflexivity|].
  rewrite str_app_empty. reflexivity.
Qed.

Lemma whole_to_string_chars (d : timedelta) :
  has_char "." (DT.to_string (d - DT.microseconds d)) = false /\
  has_char ":" (DT.to_string (d - DT.microseconds d)) = true.
Proof.
  destruct (whole_seconds_fields d) as (E1 & E2 & E3).
  unfold DT.to_string. rewrite E1, E2, E3. cbn [Z.eqb negb].
  set (hh := Str.of_Z (DT.seconds d / 60 / 60)).
  set (mm := Str.zpad 2 ((DT.seconds d / 60) mod 60)).
  set (ss := Str.zpad 2 (DT.seconds d mod 60)).
  assert (has_char "." (hh ++ ":" ++ mm ++ ":" ++ ss) = false) as H1.
  { rewrite !has_char_app. subst hh mm ss.
    rewrite of_Z_no_char, !zpad_no_char by (reflexivity || discriminate).
    reflexivity. }
  assert (has_char ":" (hh ++ ":" ++ mm ++ ":" ++ ss) = true) as H2.
  { rewrite (has_char_app ":" hh). apply orb_true_iff. right. reflexivity. }
  destruct (negb (DT.days d =? 0)); [|split; assumption].
  split.
  - do 4 rewrite (has_char_app "."). rewrite H1.
    rewrite of_Z_no_char by (reflexivity || discriminate).
    destruct (negb (Z.abs (DT.days d) =? 1)); reflexivity.
  - do 4 rewrite (has_char_app ":"). rewrite H2.
    rewrite !orb_true_r. reflexivity.
Qed.

(** X8.  For a topic that has been seen, [time_since] is ["Never"] only
    when the reading time equals the last arrival; at any other time it is
    the elapsed duration with its microseconds dropped, so that an elapsed
    time below one second reads ["0:00:00"]. *)
Theorem time_since_whole_seconds
    (self : checker) (topic : string) (last now : datetime) :
  topic_timestamps self !! topic = Some last ->
  let row := topic_status self now topic in
  let d := to_us now - to_us last in
  (st_time_since row = "Never" <-> d = 0) /\
  (d <> 0 -> st_time_since row = DT.to_string (d - DT.microseconds d)) /\
  (0 < d < 1000000 -> st_time_since row = "0:00:00").
Proof.
  intros H row d. subst row.
  rewrite (time_since_seen _ _ _ _ H), sub_to_us. fold d.
  assert (d <> 0 ->
          Str.before "." (DT.to_string d)
          = DT.to_string (d - DT.microseconds d)) as Hcut.
  { intros _. destruct (whole_to_string_chars d) as [Hdot _].
    rewrite (to_string_split d).
    destruct (negb (DT.microseconds d =? 0)).
    - apply before_first, Hdot.
    - rewrite str_app_empty. apply before_absent, Hdot. }
  destruct (DT.truthy d) eqn:E.
  - assert (d <> 0) as Hnz by (apply truthy_nonzero, E).
    rewrite (Hcut Hnz). split; [|split].
    + split; [|contradiction]. intros Hn.
      destruct (whole_to_string_chars d) as [_ Hcolon].
      rewrite Hn in Hcolon. discriminate.
    + reflexivity.
    + intros Hd.
      assert (DT.microseconds d = d) as Hus.
      { unfold DT.microseconds, DT.us_per_day, DT.us_per_second.
        rewrite (Z.mod_small d (86400 * 1000000)) by lia.
        apply Z.mod_small. lia. }
      rewrite Hus, Z.sub_diag. reflexivity.
  - assert (d = 0) as Hz.
    { destruct (Z.eq_dec d 0) as [|Hnz]; [assumption|].
      apply truthy_nonzero in Hnz. congruence. }
    split; [tauto|]. split; [contradiction|lia].
Qed.

(** Read half a second, and ninety seconds and a half, after the arrival. *)
Lemma time_since_whole_seconds_witness :
  let last := DT.mk 2024 5 1 12 0 0 0 in
  let self := on_message (mkChecker ["a"] ∅ ∅ ∅ ∅ ∅) "a" last in
  st_time_since (topic_status self (DT.mk 2024 5 1 12 0 0 500000) "a")
    = "0:00:00" /\
  st_time_since (topic_status self (DT.mk 2024 5 1 12 1 30 500000) "a")
    = "0:01:30".
Proof.
  intros last self. split.
  - apply (time_since_whole_seconds self "a" last
             (DT.mk 2024 5 1 12 0 0 500000) eq_refl).
    vm_compute. split; reflexivity.
  - destruct (time_since_whole_seconds self "a" last
                (DT.mk 2024 5 1 12 1 30 500000) eq_refl) as (_ & H & _).
    rewrite H; [reflexivity|]. vm_compute. discriminate.
Defined.

(** ** The lines of the metrics document *)



Section MetricsBlocks.

Variable mktime : datetime -> Z.




End MetricsBlocks.




(** ** The number read back from a formatted average *)

Lemma parse_unsigned_value (a b : string) :
  a <> "" -> all_digits a = true -> b <> "" -> all_digits b = true ->
  exists f,
    F.parse_unsigned (a ++ String "." b) = Ok f /\
    forall sg,
      f sg =
      let k := Z.of_nat (String.length b) in
      let n := digits_value 0 a * 10 ^ k + digits_value 0 b in
      if n =? 0 then S754_zero sg
      else F.int_true_div (if sg then - n else n) (10 ^ k).
Proof.
  intros Ha Da Hb Db. unfold F.parse_unsigned.
  destruct a as [|c a']; [contradiction|].
  assert (Str.is_digit c = true) as Hc
    by (cbn [all_digits] in Da; apply andb_true_iff in Da as [? _]; assumption).
  rewrite str_app_cons.
  assert (String.eqb (String c (a' ++ String "." b)) "inf" = false) as ->
    by (cbn [String.eqb]; rewrite (digit_not_letter c "i" Hc eq_refl);
        reflexivity).
  assert (String.eqb (String c (a' ++ String "." b)) "nan" = false) as ->
    by (cbn [String.eqb]; rewrite (digit_not_letter c "n" Hc eq_refl);
        reflexivity).
  rewrite <- str_app_cons, before_point_digits by exact Da.
  set (a := String c a') in *.
  assert ((String.length a <? String.length (a ++ String "." b))%nat = true)
    as -> by (apply Nat.ltb_lt; rewrite str_length_app; cbn; lia).
  replace (S (String.length a)) with (String.length a + 1)%nat by lia.
  rewrite substring_from, str_length_app. cbn [String.length substring].
  replace (String.length a + S (String.length b) - (String.length a + 1))%nat
    with (String.length b) by lia.
  rewrite substring_all.
  rewrite (parse_digits_value a 0 Ha Da), (parse_digits_value b 0 Hb Db).
  eexists. split; reflexivity.
Qed.

Lemma tenths_nonneg (m : positive) (e : Z) : 0 <= tenths m e.
Proof.
  unfold tenths. destruct (0 <=? e) eqn:E.
  - apply Z.leb_le in E.
    pose proof (Z.pow_pos_nonneg 2 e ltac:(lia) E). lia.
  - apply Z.leb_gt in E. unfold F.round_half_even.
    assert (0 < 2 ^ (- e)) as Hp by (apply Z.pow_pos_nonneg; lia).
    pose proof (Z.div_pos (Z.pos m * 10) (2 ^ (- e)) ltac:(lia) Hp).
    destruct (_ ?= _); [destruct (Z.even _)| |]; lia.
Qed.

(** X12.  The number [get_metrics] reads back from a formatted average:
    for a finite float it is the float nearest to [n / 10], where [n] is
    ten times the magnitude rounded to the nearest integer, ties to even,
    with the sign kept; the exported average is this number for the unit
    [s], and its product with 60, 3600 or 86400 for [m], [h] and [d]. *)
Theorem formatted_average_read_back (s : bool) (m : positive) (e : Z) :
  let x := S754_finite s m e in
  let n := tenths m e in
  let y := if n =? 0 then S754_zero s
           else F.int_true_div (if s then - n else n) 10 in
  F.of_string (F.format_1f x) = Ok y /\
  avg_interval_seconds (F.format_1f x ++ "s") = Ok (Float y) /\
  avg_interval_seconds (F.format_1f x ++ "m")
    = Ok (Float (F.mul y (F.of_Z 60))) /\
  avg_interval_seconds (F.format_1f x ++ "h")
    = Ok (Float (F.mul y (F.of_Z 3600))) /\
  avg_interval_seconds (F.format_1f x ++ "d")
    = Ok (Float (F.mul y (F.of_Z 86400))).
Proof.
  intros x n y.
  assert (F.of_string (F.format_1f x) = Ok y) as Hy.
  { subst x y. unfold F.format_1f. fold (tenths m e). fold n.
    pose proof (tenths_nonneg m e) as Hn. fold n in Hn.
    pose proof (Z.mod_pos_bound n 10 ltac:(lia)) as Hm.
    pose proof (Z.div_mod n 10 ltac:(lia)) as Hdm.
    assert (0 <= n / 10) as Hq by (apply Z.div_pos; lia).
    destruct (parse_unsigned_value (Str.of_N (n / 10)) (Str.of_N (n mod 10))
                (of_N_nonempty _) (all_digits_of_N _)
                (of_N_nonempty _) (all_digits_of_N _)) as (f & Hf & Hv).
    assert (forall sg, f sg = if n =? 0 then S754_zero sg
                              else F.int_true_div (if sg then - n else n) 10)
      as Hv'.
    { intros sg. rewrite Hv. rewrite !of_N_value by lia.
      rewrite (of_N_one_digit (n mod 10)) by lia. cbn [String.length].
      cbn zeta. change (10 ^ Z.of_nat 1) with 10.
      replace (n / 10 * 10 + n mod 10) with n by lia. reflexivity. }
    change (Str.of_N (n / 10) ++ "." ++ Str.of_N (n mod 10))
      with (Str.of_N (n / 10) ++ String "." (Str.of_N (n mod 10))).
    destruct s; unfold F.sign_str.
    - change ("-" ++ Str.of_N (n / 10) ++ String "." (Str.of_N (n mod 10)))
        with (String "-" (Str.of_N (n / 10)
                          ++ String "." (Str.of_N (n mod 10)))).
      cbn [F.of_string]. rewrite Hf. cbn. rewrite Hv'. reflexivity.
    - rewrite str_app_nil.
      pose proof (of_N_nonempty (n / 10)) as Hne.
      pose proof (all_digits_of_N (n / 10)) as Hd.
      destruct (Str.of_N (n / 10)) as [|c r]; [contradiction|].
      rewrite str_app_cons in *.
      rewrite of_string_not_minus, Hf.
      + cbn. rewrite Hv'. reflexivity.
      + cbn [all_digits] in Hd. apply andb_true_iff in Hd as [Hc _].
        intros ->. discriminate. }
  split; [exact Hy|].
  destruct (avg_interval_seconds_unit (F.format_1f x)) as (Hs & Hm & Hh & Hd).
  rewrite Hs, Hm, Hh, Hd, Hy. repeat split.
Qed.

(** ** The sanitized topic *)

Lemma sanitize_char_fixed (c : ascii) :
  sanitize_char (sanitize_char c) = sanitize_char c.
Proof.
  unfold sanitize_char.
  destruct (Ascii.eqb c "/" || Ascii.eqb c "-" || Ascii.eqb c "." ||
            Ascii.eqb c ":" || Ascii.eqb c " ") eqn:E;
    [reflexivity|]. rewrite E. reflexivity.
Qed.

Lemma sanitize_char_clean (c x : ascii) :
  x = "/"%char \/ x = "-"%char \/ x = "."%char \/ x = ":"%char
  \/ x = " "%char ->
  Ascii.eqb (sanitize_char c) x = false.
Proof.
  intros Hx. unfold sanitize_char.
  destruct (Ascii.eqb_spec c "/") as [->|N1];
    [destruct Hx as [->|[->|[->|[->| ->]]]]; reflexivity|].
  destruct (Ascii.eqb_spec c "-") as [->|N2];
    [destruct Hx as [->|[->|[->|[->| ->]]]]; reflexivity|].
  destruct (Ascii.eqb_spec c ".") as [->|N3];
    [destruct Hx as [->|[->|[->|[->| ->]]]]; reflexivity|].
  destruct (Ascii.eqb_spec c ":") as [->|N4];
    [destruct Hx as [->|[->|[->|[->| ->]]]]; reflexivity|].
  destruct (Ascii.eqb_spec c " ") as [->|N5];
    [destruct Hx as [->|[->|[->|[->| ->]]]]; reflexivity|].
  cbn [orb]. apply Ascii.eqb_neq.
  destruct Hx as [->|[->|[->|[->| ->]]]]; assumption.
Qed.

(** X13.  [safe_topic] keeps the length of the topic, leaves none of the
    characters [/], [-], [.], [:] and blank in it, changes nothing in a
    topic that has none of them, and gives the same when applied twice. *)
Theorem safe_topic_properties (topic : string) :
  String.length (safe_topic topic) = String.length topic /\
  (has_char "/" (safe_topic topic) = false /\
   has_char "-" (safe_topic topic) = false /\
   has_char "." (safe_topic topic) = false /\
   has_char ":" (safe_topic topic) = false /\
   has_char " " (safe_topic topic) = false) /\
  (has_char "/" topic = false -> has_char "-" topic = false ->
   has_char "." topic = false -> has_char ":" topic = false ->
   has_char " " topic = false -> safe_topic topic = topic) /\
  safe_topic (safe_topic topic) = safe_topic topic.
Proof.
  rewrite !safe_topic_sanitize.
  split; [|split; [|split]].
  - induction topic as [|c s IH]; [reflexivity|].
    cbn [sanitize String.length]. rewrite IH. reflexivity.
  - induction topic as [|c s (H1 & H2 & H3 & H4 & H5)];
      [repeat split|].
    cbn [sanitize has_char]. rewrite H1, H2, H3, H4, H5, !orb_false_r.
    repeat split; apply sanitize_char_clean; tauto.
  - induction topic as [|c s IH]; [reflexivity|].
    cbn [has_char sanitize]. rewrite !orb_false_iff.
    intros [E1 H1] [E2 H2] [E3 H3] [E4 H4] [E5 H5].
    rewrite (IH H1 H2 H3 H4 H5). f_equal.
    unfold sanitize_char. rewrite E1, E2, E3, E4, E5. reflexivity.
  - induction topic as [|c s IH]; [reflexivity|].
    cbn [sanitize]. rewrite IH, sanitize_char_fixed. reflexivity.
Qed.

(** ** The registry as loaded *)

Lemma load_fold_topics_omap (l : list item)
    (acc : list string * gmap string string * gmap string string) :
  fst (fst (fold_left load_item l acc))
  = (fst (fst acc) ++ omap item_topic l)%list.
Proof.
  revert acc. induction l as [|it l IH]; intros [[ts ds] tys].
  - cbn. rewrite app_nil_r. reflexivity.
  - cbn [fold_left]. rewrite IH, omap_cons.
    destruct it as [s|d|]; cbn [load_item item_topic fst].
    + rewrite <- app_assoc. reflexivity.
    + destruct (nonempty (dict_get d "topic" "")); cbn [fst];
        [rewrite <- app_assoc|]; reflexivity.
    + reflexivity.
Qed.

Lemma load_fold_description_kept (s : string) (l : list item)
    (acc : list string * gmap string string * gmap string string) :
  (forall d, In (ItemDict d) l -> dict_get d "topic" "" = s ->
             dict_get d "description" "" = "") ->
  snd (fst (fold_left load_item l acc)) !! s = snd (fst acc) !! s.
Proof.
  revert acc. induction l as [|it l IH]; intros [[ts ds] tys] Hl;
    [reflexivity|].
  cbn [fold_left]. rewrite IH by (intros d Hd; apply Hl; right; exact Hd).
  destruct it as [s'|d|]; cbn [load_item fst snd]; try reflexivity.
  specialize (Hl d (or_introl eq_refl)).
  destruct (nonempty (dict_get d "topic" "")); cbn [fst snd]; [|reflexivity].
  destruct (String.eqb_spec (dict_get d "topic" "") s) as [E|Hne].
  - rewrite (Hl E). reflexivity.
  - destruct (nonempty (dict_get d "description" ""));
      [apply lookup_insert_ne, Hne|reflexivity].
Qed.

Lemma display_name_described (c : checker) (now : datetime) (s x : string) :
  topic_descriptions c !! s = Some x ->
  st_display_name (topic_status c now s) = x.
Proof.
  intros H. unfold topic_status.
  destruct (topic_timestamps c !! s); cbn; unfold dict_get; rewrite H;
    reflexivity.
Qed.

(** X14.  Loading a document with a topic sequence registers, in the order
    of the document and with its repetitions, each bare string and each
    non-empty identifier of a structured entry, and nothing else; what the
    checker has recorded stays.  A successful connect subscribes to exactly
    these topics in this order, a refused connect to none. *)
Theorem registry_and_subscriptions (self : checker) (l : list item) :
  exists c : checker,
    load_topics self (Parsed (DocObject (Some (Items l)))) = Ok c /\
    topics c = omap item_topic l /\
    on_connect c 0 = omap item_topic l /\
    (forall rc : Z, rc <> 0 -> on_connect c rc = []) /\
    topic_timestamps c = topic_timestamps self /\
    topic_counters c = topic_counters self /\
    topic_message_history c = topic_message_history self.
Proof.
  rewrite load_topics_items. eexists. split; [reflexivity|].
  unfold on_connect. cbn [topics topic_timestamps topic_counters
                          topic_message_history].
  unfold load_items. rewrite load_fold_topics_omap. cbn [fst app Z.eqb].
  repeat split.
  intros rc Hrc. destruct (Z.eqb_spec rc 0); [contradiction|reflexivity].
Qed.

(** X15.  Descriptions are kept by identifier, the last non-empty one
    winning: every row with the identifier of a structured entry shows the
    description of that entry when no later entry with the same identifier
    has a non-empty description, also a row that a bare string
    registered. *)
Theorem description_of_last_entry
    (self : checker) (l1 l2 : list item) (d : gmap string string)
    (s x : string) :
  dict_get d "topic" "" = s -> s <> "" ->
  dict_get d "description" "" = x -> x <> "" ->
  (forall d', In (ItemDict d') l2 -> dict_get d' "topic" "" = s ->
              dict_get d' "description" "" = "") ->
  exists c : checker,
    load_topics self
      (Parsed (DocObject (Some (Items (l1 ++ ItemDict d :: l2))))) = Ok c /\
    topic_descriptions c !! s = Some x /\
    forall now : datetime, st_display_name (topic_status c now s) = x.
Proof.
  intros Hs Hsne Hx Hxne Hl2.
  rewrite load_topics_items. eexists. split; [reflexivity|].
  cbn [topic_descriptions].
  assert (snd (fst (load_items (l1 ++ ItemDict d :: l2))) !! s = Some x) as E.
  { unfold load_items. rewrite fold_left_app. cbn [fold_left].
    rewrite load_fold_description_kept by exact Hl2.
    destruct (fold_left load_item l1 ([], ∅, ∅)) as [[ts ds] tys].
    cbn [load_item]. rewrite Hs, Hx. unfold nonempty.
    destruct (String.eqb_spec s "") as [|_]; [contradiction|].
    destruct (String.eqb_spec x "") as [|_]; [contradiction|].
    cbn [negb fst snd]. apply lookup_insert_eq. }
  split; [exact E|].
  intros now. apply display_name_described. exact E.
Qed.

(** A bare string and, after it, a structured entry for the same
    identifier. *)
Lemma description_of_last_entry_witness :
  exists c,
    load_topics empty_checker
      (Parsed (DocObject (Some (Items
         ([ItemStr "a"]
          ++ ItemDict {["topic" := "a"; "description" := "Attic"]} :: [])))))
    = Ok c /\
    topics c = ["a"; "a"] /\
    map st_display_name (get_status_data c (DT.mk 2024 5 1 12 0 0 0))
    = ["Attic"; "Attic"].
Proof.
  destruct (description_of_last_entry empty_checker [ItemStr "a"] []
              {["topic" := "a"; "description" := "Attic"]} "a" "Attic")
    as (c & Hc & _ & Hrow); try reflexivity; try discriminate.
  { intros d' []. }
  exists c. split; [exact Hc|].
  unfold get_status_data.
  assert (topics c = ["a"; "a"]) as ->
    by (vm_compute in Hc; injection Hc as <-; reflexivity).
  split; [reflexivity|]. cbn [map]. rewrite !Hrow. reflexivity.
Defined.

(** ** Threads: progress and the final counts *)

Lemma holder_exists_step (c c' : config) (i : nat) :
  (forall j, lock c = Some j -> is_Some (threads c !! j)) ->
  step_at i c = Some c' ->
  forall j, lock c' = Some j -> is_Some (threads c' !! j).
Proof.
  intros Hh Hstep j Hj. unfold step_at in Hstep.
  destruct (threads c !! i) as [th|] eqn:Hi; [|discriminate].
  destruct (step_thread i (shared c) (lock c) th) as [[[s' l'] th']|] eqn:Hs;
    [|discriminate].
  injection Hstep as <-. cbn [lock threads] in *.
  apply lookup_lt_is_Some. rewrite length_insert.
  assert (l' = lock c \/ l' = Some i \/ l' = None) as Hl.
  { destruct th as [tp t [|k|]|now [|[|tp todo] acc|r]];
      cbn [step_thread] in Hs.
    - destruct (lock c); [discriminate|]. injection Hs as <- <- <-. tauto.
    - destruct (k <? 5)%nat; injection Hs as <- <- <-; tauto.
    - discriminate.
    - destruct (lock c); [discriminate|]. injection Hs as <- <- <-. tauto.
    - injection Hs as <- <- <-. tauto.
    - injection Hs as <- <- <-. tauto.
    - discriminate. }
  destruct Hl as [-> | [-> | ->]].
  - apply lookup_lt_is_Some, Hh, Hj.
  - injection Hj as <-. eapply lookup_lt_Some, Hi.
  - discriminate.
Qed.

Lemma holder_exists_run (schedule : list nat) (c c' : config) :
  (forall j, lock c = Some j -> is_Some (threads c !! j)) ->
  run_schedule schedule c = Some c' ->
  forall j, lock c' = Some j -> is_Some (threads c' !! j).
Proof.
  revert c. induction schedule as [|i rest IH]; intros c Hh Hrun.
  - injection Hrun as <-. exact Hh.
  - cbn [run_schedule] in Hrun.
    destruct (step_at i c) as [c1|] eqn:Hstep; [|discriminate].
    apply (IH c1); [|exact Hrun].
    apply (holder_exists_step c c1 i Hh Hstep).
Qed.

Lemma inside_can_step (c : config) (i : nat) (th : thread) :
  threads c !! i = Some th -> in_block th = true ->
  exists c', step_at i c = Some c'.
Proof.
  intros Hi Hb. unfold step_at. rewrite Hi.
  destruct th as [tp t [|k|]|now [|[|tp todo] acc|r]]; try discriminate;
    cbn [step_thread]; [destruct (k <? 5)%nat| |]; eauto.
Qed.

(** X16.  The threads never block one another for good: in every
    configuration that threads started from their beginnings can reach, if
    some thread has not finished its method then some thread can take a
    step; and when all have finished the lock is free. *)
Theorem no_deadlock
    (self0 : checker) (ths : list thread) (schedule : list nat) (c : config) :
  Forall (fun th => at_start th = true) ths ->
  run_schedule schedule (mkConfig self0 None ths) = Some c ->
  ((exists i th, threads c !! i = Some th /\ finished th = false) ->
   exists j c', step_at j c = Some c') /\
  ((forall i th, threads c !! i = Some th -> finished th = true) ->
   lock c = None).
Proof.
  intros Hs Hrun.
  destruct (run_consistent self0 schedule _ c [] (consistent_start self0 ths Hs)
              Hrun) as (log & Hc & _).
  assert (forall j, lock c = Some j -> is_Some (threads c !! j)) as Hh.
  { apply (holder_exists_run schedule (mkConfig self0 None ths) c);
      [discriminate|exact Hrun]. }
  split.
  - intros (i & th & Hi & Hf).
    destruct (lock c) as [j|] eqn:Hl.
    + destruct (Hh j eq_refl) as [thj Hj].
      assert (in_block thj = true) as Hb
        by (apply (holder_in_block _ _ _ Hc _ _ Hj); exact Hl).
      destruct (inside_can_step c j thj Hj Hb) as [c' Hc']. eauto.
    + assert (in_block th = false) as Hb.
      { destruct (in_block th) eqn:E; [|reflexivity].
        apply (holder_in_block _ _ _ Hc _ _ Hi) in E. congruence. }
      exists i. unfold step_at. rewrite Hi, Hl.
      destruct th as [tp t [|k|]|now [|todo acc|r]]; try discriminate;
        cbn [step_thread]; eauto.
  - intros Hall. destruct (lock c) as [j|] eqn:Hl; [|reflexivity].
    destruct (Hh j eq_refl) as [thj Hj].
    assert (in_block thj = true) as Hb
      by (apply (holder_in_block _ _ _ Hc _ _ Hj); exact Hl).
    specialize (Hall j thj Hj).
    destruct thj as [? ? []|? []]; discriminate.
Qed.

(** Two writers and a reader, the first writer halfway through its block:
    it can go on. *)
Lemma no_deadlock_witness :
  let t := DT.mk 2024 5 1 12 0 0 0 in
  let ths := [Writer "a" t WBefore; Reader t RBefore; Writer "a" t WBefore] in
  exists c j c',
    run_schedule [0; 0; 0]%nat
      (mkConfig (mkChecker ["a"] ∅ ∅ ∅ ∅ ∅) None ths) = Some c /\
    lock c = Some 0%nat /\ step_at j c = Some c'.
Proof.
  intros t ths.
  destruct (run_schedule [0; 0; 0]%nat
              (mkConfig (mkChecker ["a"] ∅ ∅ ∅ ∅ ∅) None ths))
    as [c|] eqn:Hrun; [|vm_compute in Hrun; discriminate].
  assert (Forall (fun th => at_start th = true) ths) as Hs
    by (repeat constructor).
  destruct (no_deadlock _ ths _ c Hs Hrun) as [Hstep _].
  assert (lock c = Some 0%nat /\
          threads c !! 1%nat = Some (Reader t RBefore)) as [Hl H1]
    by (vm_compute in Hrun; injection Hrun as <-; split; reflexivity).
  destruct Hstep as (j & c' & Hc').
  { exists 1%nat, (Reader t RBefore). split; [exact H1|reflexivity]. }
  exists c, j, c'. split; [reflexivity|]. split; assumption.
Defined.

Lemma arrivals_length_perm (topic : string)
    (l l' : list (string * datetime)) :
  l ≡ₚ l' -> length (arrivals topic l) = length (arrivals topic l').
Proof.
  induction 1 as [|[tp t] l l' _ IH|[tp t] [tp' t'] l|l l1 l2 _ IH1 _ IH2].
  - reflexivity.
  - cbn [arrivals]. destruct (String.eqb tp topic); cbn [length]; lia.
  - cbn [arrivals].
    destruct (String.eqb tp topic), (String.eqb tp' topic); reflexivity.
  - lia.
Qed.

(** X17.  The counts do not depend on the order in which the threads ran:
    from a checker that has recorded nothing, whenever no writer is inside
    its block, the counter of a topic is the number of threads that have
    finished [on_message] for it, and its history has that many entries or
    100, whichever is less. *)
Theorem counts_whatever_the_schedule
    (tps : list string) (descs tys : gmap string string)
    (ths : list thread) (schedule : list nat) (c : config) (topic : string) :
  Forall (fun th => at_start th = true) ths ->
  run_schedule schedule (mkConfig (mkChecker tps descs tys ∅ ∅ ∅) None ths)
    = Some c ->
  (forall i tp t k, threads c !! i <> Some (Writer tp t (WIn k))) ->
  let k := length (arrivals topic (omap finished_event (threads c))) in
  dict_get (topic_counters (shared c)) topic 0 = Z.of_nat k /\
  length (dict_get (topic_message_history (shared c)) topic [])
  = Nat.min k 100.
Proof.
  intros Hs Hrun Hno k.
  destruct (run_consistent _ schedule _ c [] (consistent_start _ ths Hs) Hrun)
    as (log & Hc & _).
  rewrite (no_writer_inside _ _ _ Hc Hno).
  assert (length (arrivals topic log) = k) as Hk
    by (apply arrivals_length_perm, (log_finished _ _ _ Hc)).
  rewrite counter_from_nothing, Hk. split; [reflexivity|].
  unfold dict_get. rewrite history_from_nothing.
  destruct (decide (arrivals topic log = [])) as [E|_].
  - rewrite E in Hk. cbn in Hk. rewrite <- Hk. reflexivity.
  - rewrite keep_last_length, Hk. reflexivity.
Qed.

(** Two messages on one topic, the threads run one after the other in
    either order. *)
Lemma counts_whatever_the_schedule_witness :
  let t1 := DT.mk 2024 5 1 12 0 0 0 in
  let t2 := DT.mk 2024 5 1 12 0 1 0 in
  let ths := [Writer "a" t1 WBefore; Writer "a" t2 WBefore] in
  let c0 := mkConfig (mkChecker ["a"] ∅ ∅ ∅ ∅ ∅) None ths in
  exists c c',
    run_schedule [0; 0; 0; 0; 0; 0; 0; 1; 1; 1; 1; 1; 1; 1]%nat c0 = Some c /\
    run_schedule [1; 1; 1; 1; 1; 1; 1; 0; 0; 0; 0; 0; 0; 0]%nat c0 = Some c' /\
    dict_get (topic_counters (shared c)) "a" 0 = 2 /\
    dict_get (topic_counters (shared c')) "a" 0 = 2.
Proof.
  intros t1 t2 ths c0.
  assert (Forall (fun th => at_start th = true) ths) as Hs
    by (repeat constructor).
  destruct (run_schedule [0; 0; 0; 0; 0; 0; 0; 1; 1; 1; 1; 1; 1; 1]%nat c0)
    as [c|] eqn:H1; [|vm_compute in H1; discriminate].
  destruct (run_schedule [1; 1; 1; 1; 1; 1; 1; 0; 0; 0; 0; 0; 0; 0]%nat c0)
    as [c'|] eqn:H2; [|vm_compute in H2; discriminate].
  exists c, c'. split; [reflexivity|]. split; [reflexivity|].
  assert (threads c = [Writer "a" t1 WAfter; Writer "a" t2 WAfter]) as Ec
    by (vm_compute in H1; injection H1 as <-; reflexivity).
  assert (threads c' = [Writer "a" t1 WAfter; Writer "a" t2 WAfter]) as Ec'
    by (vm_compute in H2; injection H2 as <-; reflexivity).
  split.
  - destruct (counts_whatever_the_schedule ["a"] ∅ ∅ ths _ c "a" Hs H1)
      as [H _].
    + rewrite Ec. intros [|[|i]] tp t k; discriminate.
    + rewrite H, Ec. reflexivity.
  - destruct (counts_whatever_the_schedule ["a"] ∅ ∅ ths _ c' "a" Hs H2)
      as [H _].
    + rewrite Ec'. intros [|[|i]] tp t k; discriminate.
    + rewrite H, Ec'. reflexivity.
Defined.
